(** * Statlab hub: the 2x2 calculators (chi-square, RR/OR, Epi 2x2 toolkit)

    A shallow embedding of the [compute] functions of
    [calculators/chiSquare.ts], of the epidemiology calculators
    ([riskRatioCalc], [oddsRatioCalc], [epiMeasures]) and of the combined
    toolkit [ciEpi], followed by the properties the specification states
    about them.

    Numbers.  A JavaScript [number] is an IEEE 754 binary64 value: the
    [spec_float] of the Standard Library at precision 53 and maximal
    exponent 1024, with its signed zeros, infinities and NaN.  [+], [-],
    [*], [/] and [Math.sqrt] round to nearest, ties to even, overflow to an
    infinity and underflow to a subnormal or a zero, as the operations of
    [SpecFloat] do.  ECMAScript fixes [Math.exp], [Math.log] and [Math.pow]
    on the special values only and leaves the rest to the engine
    ("implementation-approximated"): that part is a parameter, the [Host].

    Exceptions.  A call that may throw returns a [completion]; the imported
    helpers ([confidenceIntervals/utils], [epidemiology/utils]) are not part
    of the sources and are taken as parameters that may throw. *)

From Stdlib Require Import ZArith Lia Bool String Ascii List DecimalString.
From Stdlib Require Import Floats.SpecFloat.
From stdpp Require Import gmap strings.
Import ListNotations.

(** ** JavaScript numbers and the operations the calculators use *)

Module JS.

Definition number : Type := spec_float.

(** binary64 *)
Definition prec : Z := 53.
Definition emax : Z := 1024.

Abbreviation NaN := S754_nan.
Abbreviation PInf := (S754_infinity false).
Abbreviation NInf := (S754_infinity true).

Definition pos_zero : number := S754_zero false.
Definition neg_zero : number := S754_zero true.

(** The Number nearest to an integer. *)
Definition of_Z (z : Z) : number := binary_normalize prec emax z 0 false.

Definition one : number := of_Z 1.

(** *** Numeric literals

    An unsigned decimal literal denotes the Number nearest to its value:
    the significand [sig] times a power of ten, rounded once. *)

Fixpoint uint_digits (d : Decimal.uint) : nat :=
  match d with
  | Decimal.Nil => 0
  | Decimal.D0 d | Decimal.D1 d | Decimal.D2 d | Decimal.D3 d | Decimal.D4 d
  | Decimal.D5 d | Decimal.D6 d | Decimal.D7 d | Decimal.D8 d | Decimal.D9 d =>
      S (uint_digits d)
  end.

Definition scaled (sig e10 : Z) : number :=
  match sig with
  | Zpos p =>
      if (0 <=? e10)%Z then of_Z (sig * 10 ^ e10)
      else SFdiv prec emax (S754_finite false p 0)
                           (S754_finite false (Z.to_pos (10 ^ (- e10))) 0)
  | _ => pos_zero
  end.

Definition of_literal (n : Number.number) : option number :=
  match n with
  | Number.Decimal (Decimal.Decimal (Decimal.Pos i) f) =>
      Some (scaled (Z.of_uint (Decimal.app i f)) (- Z.of_nat (uint_digits f)))
  | Number.Decimal (Decimal.DecimalExp (Decimal.Pos i) f e) =>
      Some (scaled (Z.of_uint (Decimal.app i f))
                   (Z.of_int e - Z.of_nat (uint_digits f)))
  | _ => None
  end.

(** Numbers are printed as their constructors. *)
Definition to_literal (x : number) : option Number.number := None.

(** *** Arithmetic and comparisons (Number::add, ::subtract, ::multiply,
    ::divide, ::lessThan, IsStrictlyEqual) *)

Definition add : number -> number -> number := SFadd prec emax.
Definition sub : number -> number -> number := SFsub prec emax.
Definition mul : number -> number -> number := SFmul prec emax.
Definition div : number -> number -> number := SFdiv prec emax.

(** [x < y] and [x <= y]: false as soon as one side is NaN. *)
Definition ltb : number -> number -> bool := SFltb.
Definition leb : number -> number -> bool := SFleb.

(** [x === y] on numbers: NaN equals nothing, +0 equals -0. *)
Definition strict_eq : number -> number -> bool := SFeqb.

(** [x !== y]. *)
Definition strict_neq (x y : number) : bool := negb (strict_eq x y).

Definition is_nan (x : number) : bool :=
  match x with
  | NaN => true
  | _ => false
  end.

(** The sign bit is clear, or the value is NaN. *)
Definition sign_clear (x : number) : bool :=
  match x with
  | NaN | S754_zero false | PInf | S754_finite false _ _ => true
  | _ => false
  end.

(** NaN, a zero of either sign, or a positive value. *)
Definition not_negative (x : number) : bool :=
  match x with
  | S754_zero true => true
  | _ => sign_clear x
  end.

(** A Number is a binary64 value: NaN, an infinity, a zero, or a mantissa
    of at most 53 bits in canonical position with its exponent in range. *)
Definition is_binary64 (x : number) : bool := valid_binary prec emax x.

(** The global [isFinite]. *)
Definition isFinite (x : number) : bool :=
  match x with
  | S754_zero _ | S754_finite _ _ _ => true
  | _ => false
  end.

(** ToBoolean on a number: +0, -0 and NaN are falsy. *)
Definition truthy (x : number) : bool :=
  match x with
  | S754_zero _ | NaN => false
  | _ => true
  end.

(** [x || y] on numbers. *)
Definition logical_or (x y : number) : number := if truthy x then x else y.

Definition Math_abs : number -> number := SFabs.

(** [Math.max(x, y)]: NaN as soon as one argument is NaN; +0 is larger
    than -0. *)
Definition Math_max (x y : number) : number :=
  match x, y with
  | NaN, _ | _, NaN => NaN
  | S754_zero true, S754_zero false => y
  | _, _ => if ltb x y then y else x
  end.

(** [Math.sqrt]: NaN below zero, the argument itself on +0, -0 and
    Infinity, and the correctly rounded root otherwise (the square root of
    IEEE 754, which is what the engines compute). *)
Definition Math_sqrt : number -> number := SFsqrt prec emax.

(** Whether a Number is an integer, and an odd one. *)
Definition integral (x : number) : bool :=
  match x with
  | S754_zero _ => true
  | S754_finite _ m e => (0 <=? e)%Z || (Zpos m mod 2 ^ (- e) =? 0)%Z
  | _ => false
  end.

Definition odd_integral (x : number) : bool :=
  match x with
  | S754_finite _ m e =>
      if (0 <? e)%Z then false
      else (Zpos m mod 2 ^ (- e) =? 0)%Z && Z.odd (Zpos m / 2 ^ (- e))
  | _ => false
  end.

(** *** What the engine supplies

    The values ECMAScript calls implementation-approximated, and the digits
    of Number::toString on a finite positive value. *)
Record Host : Type := {
  exp_approx : number -> number;
  log_approx : number -> number;
  pow_approx : number -> number -> number;
  toString_finite : number -> string
}.

Section Engine.

Variable host : Host.

(** [Math.exp]: 1 at +0 and -0, +0 at -Infinity. *)
Definition Math_exp (x : number) : number :=
  match x with
  | NaN => NaN
  | S754_zero _ => one
  | PInf => PInf
  | NInf => pos_zero
  | S754_finite _ _ _ => exp_approx host x
  end.

(** [Math.log]: NaN below zero, -Infinity at +0 and -0, +0 at 1. *)
Definition Math_log (x : number) : number :=
  match x with
  | NaN => NaN
  | S754_zero _ => NInf
  | PInf => PInf
  | NInf => NaN
  | S754_finite true _ _ => NaN
  | S754_finite false _ _ =>
      if strict_eq x one then pos_zero else log_approx host x
  end.

(** [Math.pow(base, exponent)] (Number::exponentiate). *)
Definition Math_pow (base exponent : number) : number :=
  match exponent with
  | NaN => NaN
  | S754_zero _ => one
  | _ =>
      match base with
      | NaN => NaN
      | PInf => if ltb pos_zero exponent then PInf else pos_zero
      | NInf =>
          if ltb pos_zero exponent
          then (if odd_integral exponent then NInf else PInf)
          else (if odd_integral exponent then neg_zero else pos_zero)
      | S754_zero false => if ltb pos_zero exponent then pos_zero else PInf
      | S754_zero true =>
          if ltb pos_zero exponent
          then (if odd_integral exponent then neg_zero else pos_zero)
          else (if odd_integral exponent then NInf else PInf)
      | S754_finite s _ _ =>
          match exponent with
          | PInf =>
              match SFcompare (SFabs base) one with
              | Some Gt => PInf
              | Some Eq => NaN
              | _ => pos_zero
              end
          | NInf =>
              match SFcompare (SFabs base) one with
              | Some Gt => pos_zero
              | Some Eq => NaN
              | _ => PInf
              end
          | _ =>
              if s && negb (integral exponent) then NaN
              else pow_approx host base exponent
          end
      end
  end.

End Engine.

(** *** Completions: a call returns normally or throws *)

Inductive exception : Type :=
| RangeError
| Error (message : string).

Inductive completion (A : Type) : Type :=
| Normal (v : A)
| Throw (e : exception).

Arguments Normal {A} v.
Arguments Throw {A} e.

Definition bind {A B : Type} (m : completion A) (k : A -> completion B)
  : completion B :=
  match m with
  | Normal v => k v
  | Throw e => Throw e
  end.

(** *** Number to string *)

Definition decimal (n : Z) : string :=
  NilZero.string_of_uint (N.to_uint (Z.to_N n)).

Fixpoint zeros (k : nat) : string :=
  match k with
  | O => EmptyString
  | S k' => String "0" (zeros k')
  end.

(** Steps 11.c.ii to 11.c.v of Number.prototype.toFixed: [m] is padded
    with zeros to [f + 1] digits and the point is put before the last [f]. *)
Definition place_point (f : nat) (m : string) : string :=
  if (f =? 0)%nat then m
  else
    let m := if (String.length m <=? f)%nat
             then zeros (f + 1 - String.length m) +:+ m else m in
    let k := String.length m in
    substring 0 (k - f) m +:+ "." +:+ substring (k - f) f m.

(** The integer nearest to [m * 2^e * 10^f], the larger one on a tie. *)
Definition nearest_scaled (f : nat) (m : positive) (e : Z) : Z :=
  let num := (Zpos m * 10 ^ Z.of_nat f)%Z in
  if (0 <=? e)%Z then (num * 2 ^ e)%Z
  else ((2 * num + 2 ^ (- e)) / 2 ^ (1 - e))%Z.

(** Whether [k <= m * 2^e]. *)
Definition at_least (k : Z) (m : positive) (e : Z) : bool :=
  if (0 <=? e)%Z then (k <=? Zpos m * 2 ^ e)%Z
  else (k * 2 ^ (- e) <=? Zpos m)%Z.

Section ToString.

Variable host : Host.

(** Number::toString. *)
Definition Number_toString (x : number) : string :=
  match x with
  | NaN => "NaN"
  | S754_zero _ => "0"
  | PInf => "Infinity"
  | NInf => "-Infinity"
  | S754_finite false _ _ => toString_finite host x
  | S754_finite true _ _ => "-" +:+ toString_finite host (SFabs x)
  end.

(** [x.toFixed(fractionDigits)]: a RangeError beyond 100 digits; a value
    that is not finite is printed by Number::toString; the sign is kept
    apart (and -0 has none); a magnitude of 10^21 or more is printed by
    Number::toString; otherwise the digits are those of the integer nearest
    to the exact value of [x] times [10^fractionDigits]. *)
Definition toFixed (x : number) (fractionDigits : nat) : completion string :=
  if (100 <? fractionDigits)%nat then Throw RangeError
  else
    match x with
    | S754_zero _ => Normal (place_point fractionDigits "0")
    | S754_finite s m e =>
        let sign := if s then "-" else "" in
        if at_least (10 ^ 21) m e
        then Normal (sign +:+ toString_finite host (SFabs x))
        else Normal (sign +:+ place_point fractionDigits
                                (decimal (nearest_scaled fractionDigits m e)))
    | _ => Normal (Number_toString x)
    end.

End ToString.

End JS.

Declare Scope js_scope.
Delimit Scope js_scope with js.
Bind Scope js_scope with JS.number.
Bind Scope js_scope with spec_float.
Number Notation spec_float JS.of_literal JS.to_literal : js_scope.
Infix "+" := JS.add : js_scope.
Infix "-" := JS.sub : js_scope.
Infix "*" := JS.mul : js_scope.
Infix "/" := JS.div : js_scope.
Infix "<" := JS.ltb : js_scope.
Infix "<=" := JS.leb : js_scope.
Notation "x === y" := (JS.strict_eq x y) (at level 70, no associativity) : js_scope.
Notation "x !== y" := (JS.strict_neq x y) (at level 70, no associativity) : js_scope.
Notation "'let*' x ':=' m 'in' k" := (JS.bind m (fun x => k))
  (at level 10, x name, m at level 100, k at level 200) : js_scope.

(** ** The result record of a calculator ([types.ts], as the calculators
    build it) *)

Inductive display : Type :=
| Text (s : string)
| Num (x : JS.number).

(** One labelled entry; [isMain] is optional. *)
Record entry : Type := Entry {
  label : string;
  value : display;
  isMain : option bool
}.

(** What [compute] returns; [rCode] and [formula] are optional. *)
Record result : Type := Result {
  results : list entry;
  interpretation : string;
  rCode : option string;
  formula : option string
}.

(** The characters a string literal cannot hold. *)
Definition nl : string := String (ascii_of_nat 10) EmptyString.
Definition dq : string := String (ascii_of_nat 34) EmptyString.

(** ** The imported helpers

    [confidenceIntervals/utils] (imported as [ciUtils]) and
    [epidemiology/utils] are not among the sources: their functions are
    parameters, and each call may throw. *)

Record TPValue : Type := { twoSided : JS.number }.

Record CiUtils : Type := {
  getChiSqPValue : JS.number -> JS.number -> JS.completion JS.number;
  getZCritical : JS.number -> JS.completion JS.number;
  getTPValue : JS.number -> JS.number -> JS.completion TPValue;
  formatCI : JS.number -> JS.number -> JS.number -> JS.completion string
}.

(** ** calculators/chiSquare.ts *)

Module chiSquare.
Import JS.
Local Open Scope js_scope.

Record input : Type := Input {
  a : number;
  b : number;
  c : number;
  d : number;
  yates : bool
}.

Section compute.

Variable host : Host.
Variable ciUtils : CiUtils.
Variable data : input.

Definition n : number := data.(a) + data.(b) + data.(c) + data.(d).
Definition row1 : number := data.(a) + data.(b).
Definition row2 : number := data.(c) + data.(d).
Definition col1 : number := data.(a) + data.(c).
Definition col2 : number := data.(b) + data.(d).

(** The guard of line 30. *)
Definition zero_total : bool :=
  (row1 === 0) || (row2 === 0) || (col1 === 0) || (col2 === 0).

Definition numerator : number :=
  Math_abs (data.(a) * data.(d) - data.(b) * data.(c)).

Definition correctedNum : number :=
  if data.(yates) then Math_max 0 (numerator - n / 2) else numerator.

(** The divisor of line 36. *)
Definition divisor : number := row1 * row2 * col1 * col2.

Definition chi2 : number := (n * Math_pow host correctedNum 2) / divisor.

Definition formatP (p : number) : completion string :=
  if p < 0.001 then Normal "< 0.001" else toFixed host p 4.

Definition rCode_text : string :=
  let str := Number_toString host in
  "# Create matrix table" +:+ nl
  +:+ "tab <- matrix(c(" +:+ str data.(a) +:+ ", " +:+ str data.(c) +:+ ", "
  +:+ str data.(b) +:+ ", " +:+ str data.(d) +:+ "), nrow = 2)" +:+ nl
  +:+ "colnames(tab) <- c(" +:+ dq +:+ "Exposure+" +:+ dq +:+ ", "
  +:+ dq +:+ "Exposure-" +:+ dq +:+ ")" +:+ nl
  +:+ "rownames(tab) <- c(" +:+ dq +:+ "Outcome+" +:+ dq +:+ ", "
  +:+ dq +:+ "Outcome-" +:+ dq +:+ ")" +:+ nl +:+ nl
  +:+ "# Chi-Square Test" +:+ nl
  +:+ "chisq.test(tab, correct = "
  +:+ (if data.(yates) then "TRUE" else "FALSE") +:+ ")" +:+ nl +:+ nl
  +:+ "# Fisher's Exact Test (Recommended for small cells)" +:+ nl
  +:+ "fisher.test(tab)".

(** What [compute] returns at line 31. *)
Definition zero_total_result : result :=
  {| results := [];
     interpretation := "Table contains a row or column with zero totals.";
     rCode := None;
     formula := None |}.

Definition compute : completion result :=
  if zero_total then Normal zero_total_result
  else
    let* pValue := getChiSqPValue ciUtils chi2 1 in
    let* chi2_4 := toFixed host chi2 4 in
    let* p_shown := formatP pValue in
    let* chi2_3 := toFixed host chi2 3 in
    let* p_told := formatP pValue in
    Normal
      {| results :=
           [ Entry "Chi-Square (χ²)" (Text chi2_4) (Some true);
             Entry "p-value" (Text p_shown) (Some true);
             Entry "Degrees of Freedom" (Num 1) None;
             Entry "Yates Correction"
               (Text (if data.(yates) then "Applied" else "Not Applied")) None ];
         interpretation :=
           "The Chi-square value is " +:+ chi2_3 +:+ " (p = " +:+ p_told +:+ ").";
         rCode := Some rCode_text;
         formula := Some "χ² = n(|ad-bc| - c)² / (R1*R2*C1*C2)" |}.

End compute.

End chiSquare.

(** ** The calculator [epiMeasures] (Relative Risk & Odds Ratio) *)

Module epiMeasures.
Import JS.
Local Open Scope js_scope.

Record input : Type := Input {
  a : number;
  b : number;
  c : number;
  d : number
}.

Section compute.

Variable host : Host.
Variable data : input.

Definition n1 : number := data.(a) + data.(b).
Definition n2 : number := data.(c) + data.(d).
Definition r1 : number := data.(a) / n1.
Definition r2 : number := data.(c) / n2.
Definition rr : number := r1 / r2.
Definition or : number := (data.(a) * data.(d)) / (data.(b) * data.(c)).

Definition rCode_text : string :=
  let str := Number_toString host in
  "# Create 2x2 table matrix" +:+ nl
  +:+ "tab <- matrix(c(" +:+ str data.(a) +:+ ", " +:+ str data.(c) +:+ ", "
  +:+ str data.(b) +:+ ", " +:+ str data.(d) +:+ "), nrow = 2)" +:+ nl
  +:+ "dimnames(tab) <- list(Disease = c(" +:+ dq +:+ "Yes" +:+ dq +:+ ", "
  +:+ dq +:+ "No" +:+ dq +:+ "), Exposure = c(" +:+ dq +:+ "Yes" +:+ dq
  +:+ ", " +:+ dq +:+ "No" +:+ dq +:+ "))" +:+ nl +:+ nl
  +:+ "# Association Tests" +:+ nl
  +:+ "chisq.test(tab)" +:+ nl
  +:+ "fisher.test(tab)" +:+ nl +:+ nl
  +:+ "# For Relative Risk and Odds Ratio (Requires 'epiR' package)" +:+ nl
  +:+ "# install.packages(" +:+ dq +:+ "epiR" +:+ dq +:+ ")" +:+ nl
  +:+ "library(epiR)" +:+ nl
  +:+ "epi.2by2(tab, method = " +:+ dq +:+ "cohort.count" +:+ dq +:+ ")".

Definition compute : completion result :=
  let* rr_3 := toFixed host rr 3 in
  let* or_3 := toFixed host or 3 in
  let* rr_2 := toFixed host rr 2 in
  let* or_2 := toFixed host or 2 in
  Normal
    {| results :=
         [ Entry "Relative Risk (RR)" (Text rr_3) (Some true);
           Entry "Odds Ratio (OR)" (Text or_3) (Some true) ];
       interpretation := "RR is " +:+ rr_2 +:+ ", OR is " +:+ or_2 +:+ ".";
       rCode := Some rCode_text;
       formula :=
         Some ("RR = [a/(a+b)] / [c/(c+d)]" +:+ nl +:+ "OR = (a*d) / (b*c)") |}.

End compute.

End epiMeasures.

(** ** The combined toolkit [ciEpi] (Epi 2x2 CI Toolkit) *)

Module ciEpi.
Import JS.
Local Open Scope js_scope.

Record input : Type := Input {
  a : number;
  b : number;
  c : number;
  d : number;
  conf : number
}.

Section compute.

Variable host : Host.
Variable ciUtils : CiUtils.

(** The closure [getLogP] of lines 133 to 137. *)
Definition getLogP (est seLog : number) : completion number :=
  if (est <= 0) || negb (isFinite est) then Normal 1
  else
    let zStat := Math_abs (Math_log host est) / seLog in
    let* t := getTPValue ciUtils zStat 1000 in
    Normal t.(twoSided).

(** The closures [f] and [fP] of lines 172 and 173. *)
Definition f (n : number) : completion string :=
  if isFinite n then toFixed host n 4 else Normal "∞".

Definition fP (p : number) : completion string :=
  if p < 0.001 then Normal "< 0.001" else toFixed host p 4.

Variable data : input.

Definition orPoint : number :=
  if (data.(b) !== 0) && (data.(c) !== 0)
  then (data.(a) * data.(d)) / (data.(b) * data.(c))
  else PInf.

Definition ac : number := data.(a) + 0.5.
Definition bc : number := data.(b) + 0.5.
Definition cc : number := data.(c) + 0.5.
Definition dc : number := data.(d) + 0.5.
Definition orCorrected : number := (ac * dc) / (bc * cc).
Definition seLogOrWoolf : number :=
  Math_sqrt (1 / ac + 1 / bc + 1 / cc + 1 / dc).

Definition r1 : number := logical_or (data.(a) / (data.(a) + data.(b))) 0.
Definition r2 : number := logical_or (data.(c) / (data.(c) + data.(d))) 0.
Definition rr : number :=
  if r2 === 0 then (if 0 < r1 then PInf else 1) else r1 / r2.
Definition rrSELog : number :=
  Math_sqrt ((1 / ac - 1 / (ac + bc)) + (1 / cc - 1 / (cc + dc))).

Definition rd : number := r1 - r2.
Definition seRd : number :=
  Math_sqrt ((r1 * (1 - r1)) / logical_or (data.(a) + data.(b)) 1
             + (r2 * (1 - r2)) / logical_or (data.(c) + data.(d)) 1).

Definition rCode_text : string :=
  let str := Number_toString host in
  "# Comprehensive 2x2 Analysis" +:+ nl
  +:+ "tab <- matrix(c(" +:+ str data.(a) +:+ ", " +:+ str data.(c) +:+ ", "
  +:+ str data.(b) +:+ ", " +:+ str data.(d) +:+ "), nrow = 2)" +:+ nl +:+ nl
  +:+ "# Fisher and Chi-Sq" +:+ nl
  +:+ "fisher.test(tab)" +:+ nl
  +:+ "chisq.test(tab)" +:+ nl +:+ nl
  +:+ "# epiR for OR/RR/RD" +:+ nl
  +:+ "# library(epiR)" +:+ nl
  +:+ "# epi.2by2(tab, method = " +:+ dq +:+ "cohort.count" +:+ dq +:+ ")".

(** What follows line 131, where [zCrit] is known. *)
Section with_zCrit.

Variable zCrit : number.

Definition woolfLower : number :=
  Math_exp host (Math_log host orCorrected - zCrit * seLogOrWoolf).
Definition woolfUpper : number :=
  Math_exp host (Math_log host orCorrected + zCrit * seLogOrWoolf).

(** [exactLower] and [exactUpper] after the conditional of lines 148-156. *)
Definition exact : number * number :=
  if (data.(a) !== 0) && (data.(d) !== 0) && (data.(b) !== 0) && (data.(c) !== 0)
  then
    let seExact :=
      Math_sqrt (1 / data.(a) + 1 / data.(b) + 1 / data.(c) + 1 / data.(d)) in
    (orPoint / Math_exp host (zCrit * seExact),
     orPoint * Math_exp host (zCrit * seExact))
  else (woolfLower, woolfUpper).
Definition exactLower : number := fst exact.
Definition exactUpper : number := snd exact.

Definition rrLower : number :=
  if (0 < rr) && isFinite rr
  then Math_exp host (Math_log host rr - zCrit * rrSELog) else 0.
Definition rrUpper : number :=
  if (0 < rr) && isFinite rr
  then Math_exp host (Math_log host rr + zCrit * rrSELog)
  else (if 0 < rr then PInf else 0).

Definition rdLower : number := rd - zCrit * seRd.
Definition rdUpper : number := rd + zCrit * seRd.

Definition after_zCrit : completion result :=
  let* woolfP := getLogP orCorrected seLogOrWoolf in
  let* rrP := getLogP rr rrSELog in
  let* rdP :=
    (let* t := getTPValue ciUtils (if seRd === 0 then 0 else rd / seRd) 1000 in
     Normal t.(twoSided)) in
  let* or_shown := f orPoint in
  let* exact_ci := formatCI ciUtils exactLower exactUpper 4 in
  let* woolf_ci := formatCI ciUtils woolfLower woolfUpper 4 in
  let* p_shown := fP woolfP in
  let* rr_shown := f rr in
  let* rr_ci := formatCI ciUtils rrLower rrUpper 4 in
  let* rd_shown := f rd in
  let* rd_ci := formatCI ciUtils rdLower rdUpper 4 in
  let* or_told := f orPoint in
  let* p_told := fP woolfP in
  Normal
    {| results :=
         [ Entry "Odds Ratio (Point)" (Text or_shown) (Some true);
           Entry "Approximate Exact CI (Fisher-like)" (Text exact_ci) (Some true);
           Entry "Woolf (Wald) CI" (Text woolf_ci) None;
           Entry "p-value (Association)" (Text p_shown) (Some true);
           Entry "Relative Risk (RR)" (Text rr_shown) None;
           Entry "RR 95% CI (Katz)" (Text rr_ci) None;
           Entry "Risk Difference (RD)" (Text rd_shown) None;
           Entry "RD 95% CI" (Text rd_ci) None ];
       interpretation :=
         "The point Odds Ratio is " +:+ or_told +:+ " with association p="
         +:+ p_told +:+ ".";
       rCode := Some rCode_text;
       formula := Some "Woolf: SE(ln OR) = √[1/a + 1/b + 1/c + 1/d]" |}.

End with_zCrit.

Definition compute : completion result :=
  let* zCrit := getZCritical ciUtils data.(conf) in
  after_zCrit zCrit.

End compute.

End ciEpi.

(** ** The calculators [riskRatioCalc] and [oddsRatioCalc]

    The two copies of this file have the same [compute] bodies and differ in
    the record type they declare for [data]: fields [a], [b], [c], [d] in
    one, fields [Exposed_cases], [Unexposed_cases], [Exposed_control],
    [Unexposed_control] in the other.  [compute] reads [data.a], ...,
    [data.d] in both, so [data] is modelled as an object: a finite map from
    property names to values, where reading an absent property gives
    [undefined]. *)

Module epidemiology.
Import JS.
Local Open Scope js_scope.

Inductive jsvalue : Type :=
| Undefined
| Number (x : number).

Definition ToNumber (v : jsvalue) : number :=
  match v with
  | Undefined => NaN
  | Number x => x
  end.

(** [data.k] *)
Definition get (data : gmap string jsvalue) (k : string) : jsvalue :=
  default Undefined (data !! k).

(** The shape the second copy declares: exactly these four properties. *)
Definition exposure_shape (data : gmap string jsvalue) : Prop :=
  dom data
  = {[ "Exposed_cases"; "Unexposed_cases"; "Exposed_control"; "Unexposed_control" ]}.

(** What [computeRR] and [computeOR] return. *)
Record estimate : Type := { value : number; lower : number; upper : number }.

(** [epidemiology/utils] *)
Record Utils : Type := {
  computeRR : gmap string jsvalue -> completion estimate;
  computeOR : gmap string jsvalue -> completion estimate;
  formatPercent : number -> completion string
}.

Section compute.

Variable host : Host.
Variable utils : Utils.
Variable ciUtils : CiUtils.
Variable data : gmap string jsvalue.

(** A value inside a template literal. *)
Definition ToString (v : jsvalue) : string :=
  match v with
  | Undefined => "undefined"
  | Number x => Number_toString host x
  end.

(** Among [undefined] and numbers, [+] and [/] convert both sides with
    ToNumber. *)
Definition exposed_risk : number :=
  ToNumber (get data "a") / (ToNumber (get data "a") + ToNumber (get data "b")).
Definition unexposed_risk : number :=
  ToNumber (get data "c") / (ToNumber (get data "c") + ToNumber (get data "d")).
Definition exposed_odds : number :=
  ToNumber (get data "a") / ToNumber (get data "b").
Definition unexposed_odds : number :=
  ToNumber (get data "c") / ToNumber (get data "d").

Definition tab_line : string :=
  "tab <- matrix(c(" +:+ ToString (get data "a") +:+ ", "
  +:+ ToString (get data "c") +:+ ", " +:+ ToString (get data "b") +:+ ", "
  +:+ ToString (get data "d") +:+ "), nrow = 2)".

Definition rr_rCode : string :=
  "# Create 2x2 matrix" +:+ nl +:+ tab_line +:+ nl +:+ nl
  +:+ "# install.packages(" +:+ dq +:+ "epiR" +:+ dq +:+ ")" +:+ nl
  +:+ "library(epiR)" +:+ nl
  +:+ "epi.2by2(tab, method = " +:+ dq +:+ "cohort.count" +:+ dq
  +:+ ", conf.level = 0.95)".

Definition riskRatioCalc_compute : completion result :=
  let* res := computeRR utils data in
  let* rr_3 := toFixed host res.(value) 3 in
  let* ci := formatCI ciUtils res.(lower) res.(upper) 3 in
  let* exposed := formatPercent utils exposed_risk in
  let* unexposed := formatPercent utils unexposed_risk in
  let* rr_2 := toFixed host res.(value) 2 in
  Normal
    {| results :=
         [ Entry "Risk Ratio (RR)" (Text rr_3) (Some true);
           Entry "95% CI (Log Method)" (Text ci) (Some true);
           Entry "Exposed Risk" (Text exposed) None;
           Entry "Unexposed Risk" (Text unexposed) None ];
       interpretation :=
         "Exposed group has " +:+ (if 1 < res.(value) then "higher" else "lower")
         +:+ " risk (RR=" +:+ rr_2 +:+ ").";
       rCode := Some rr_rCode;
       formula := Some "RR = [a / (a+b)] / [c / (c+d)]" |}.

Definition or_rCode : string :=
  "# Odds Ratio via Fisher Test" +:+ nl +:+ tab_line +:+ nl
  +:+ "fisher.test(tab, conf.level = 0.95)" +:+ nl +:+ nl
  +:+ "# Woolf method via 'epiR'" +:+ nl
  +:+ "# library(epiR); epi.2by2(tab, method = " +:+ dq +:+ "case-control"
  +:+ dq +:+ ")".

Definition oddsRatioCalc_compute : completion result :=
  let* res := computeOR utils data in
  let* or_3 := toFixed host res.(value) 3 in
  let* ci := formatCI ciUtils res.(lower) res.(upper) 3 in
  let* exposed := toFixed host exposed_odds 3 in
  let* unexposed := toFixed host unexposed_odds 3 in
  let* or_told := toFixed host res.(value) 3 in
  Normal
    {| results :=
         [ Entry "Odds Ratio (OR)" (Text or_3) (Some true);
           Entry "95% CI (Woolf)" (Text ci) (Some true);
           Entry "Exposed Odds" (Text exposed) None;
           Entry "Unexposed Odds" (Text unexposed) None ];
       interpretation := "The odds ratio is " +:+ or_told +:+ ".";
       rCode := Some or_rCode;
       formula := Some "OR = (a * d) / (b * c)" |}.

End compute.

End epidemiology.

(** ** The statistic as the specification writes it

    [chi2_formula] follows the words of the specification, read in the
    arithmetic of the code: the numerator [|ad - bc|], reduced by [n/2] and
    clamped at 0 under the Yates correction, squared, times [n], over the
    product of the four margins.  The properties below compare it with what
    [chiSquare.compute] computes. *)

Definition yates_numerator_formula (a b c d : JS.number) (yates : bool)
  : JS.number :=
  (if yates
   then JS.Math_max 0 (JS.Math_abs (a * d - b * c) - (a + b + c + d) / 2)
   else JS.Math_abs (a * d - b * c))%js.

Definition chi2_formula (host : JS.Host) (a b c d : JS.number) (yates : bool)
  : JS.number :=
  ((a + b + c + d) * JS.Math_pow host (yates_numerator_formula a b c d yates) 2
   / ((a + b) * (c + d) * (a + c) * (b + d)))%js.

(** ** A reference engine

    To run the calculators on examples, [Math.exp], [Math.log] and
    [Math.pow] are computed in fixed point with 200 fractional bits and
    rounded once to binary64.  An engine may differ from these values in
    the last place. *)

Module reference.
Import JS.
Local Open Scope Z_scope.

Definition bits : Z := 200.
Definition unit : Z := 2 ^ bits.

(** [term / (2j+1) + term t^2 / (2j+3) + ...], [k] terms. *)
Fixpoint atanh_terms (k : nat) (term t2 j : Z) : Z :=
  match k with
  | O => 0
  | S k' => term / (2 * j + 1) + atanh_terms k' (term * t2 / unit) t2 (j + 1)
  end.

Definition atanh (t : Z) : Z := atanh_terms 70 t (t * t / unit) 0.

(** ln 2 = 2 atanh (1/3) *)
Definition ln2 : Z := Eval vm_compute in 2 * atanh (unit / 3).

(** [term + term r / (j+1) + ...], [k] terms. *)
Fixpoint exp_terms (k : nat) (term r j : Z) : Z :=
  match k with
  | O => 0
  | S k' => term + exp_terms k' (term * r / unit / (j + 1)) r (j + 1)
  end.

(** The natural logarithm of [m * 2^e], in fixed point: the argument is
    brought to y * 2^k with 3/4 <= y <= 3/2, and ln y = 2 atanh ((y-1)/(y+1)). *)
Definition ln_fixed (m : positive) (e : Z) : Z :=
  let d := Zpos (digits2_pos m) in
  let y := Zpos m * 2 ^ (bits - (d - 1)) in
  let '(y, k) := if 3 * unit / 2 <? y then (y / 2, e + d) else (y, e + d - 1) in
  2 * atanh ((y - unit) * unit / (y + unit)) + k * ln2.

(** The exponential of the fixed-point [x]: x = k ln 2 + r with |r| at most
    (ln 2)/2, and exp x = 2^k exp r. *)
Definition exp_fixed (s : bool) (x : Z) : number :=
  let k := (2 * x + ln2) / (2 * ln2) in
  if 1100 <? k then S754_infinity s
  else if k <? -1200 then S754_zero s
  else
    let r := x - k * ln2 in
    match exp_terms 50 unit r 0 with
    | Zpos v => binary_round prec emax s v (k - bits)
    | _ => S754_zero s
    end.

(** [m * 2^e * x] for the fixed-point [x]. *)
Definition scale (m : positive) (e : Z) (x : Z) : Z :=
  if 0 <=? e then Zpos m * 2 ^ e * x else Zpos m * x / 2 ^ (- e).

Definition exp (x : number) : number :=
  match x with
  | S754_finite s m e =>
      let v := scale m e unit in
      exp_fixed false (if s then - v else v)
  | _ => x
  end.

Definition log (x : number) : number :=
  match x with
  | S754_finite false m e => binary_normalize prec emax (ln_fixed m e) (- bits) false
  | _ => x
  end.

(** base^exponent = exp (exponent * ln |base|), negative for a negative
    base and an odd exponent. *)
Definition pow (base exponent : number) : number :=
  match base, exponent with
  | S754_finite s m e, S754_finite s' m' e' =>
      let v := scale m' e' (ln_fixed m e) in
      exp_fixed (s && odd_integral exponent) (if s' then - v else v)
  | _, _ => NaN
  end.

(** Number::toString on a whole number below 10^21: its decimal digits
    (for another value, those of its integer part). *)
Definition integer_toString (x : number) : string :=
  match x with
  | S754_finite _ m e =>
      decimal (if 0 <=? e then Zpos m * 2 ^ e else Zpos m / 2 ^ (- e))
  | _ => "0"
  end.

Definition host : Host :=
  {| exp_approx := exp;
     log_approx := log;
     pow_approx := pow;
     toString_finite := integer_toString |}.

End reference.

(** ** Stand-ins for the imported helpers

    [fixed_ciUtils] and [fixed_utils] are helpers that return fixed values;
    the helpers of [throwing_ciUtils] always throw. *)

Definition fixed_ciUtils : CiUtils :=
  {| getChiSqPValue := fun _ _ => JS.Normal 0.5%js;
     getZCritical := fun _ => JS.Normal 1.96%js;
     getTPValue := fun _ _ => JS.Normal {| twoSided := 0.5%js |};
     formatCI := fun _ _ _ => JS.Normal "lower to upper" |}.

Definition throwing_ciUtils : CiUtils :=
  {| getChiSqPValue := fun _ _ => JS.Throw (JS.Error "getChiSqPValue");
     getZCritical := fun _ => JS.Throw (JS.Error "getZCritical");
     getTPValue := fun _ _ => JS.Throw (JS.Error "getTPValue");
     formatCI := fun _ _ _ => JS.Throw (JS.Error "formatCI") |}.

Definition fixed_utils : epidemiology.Utils :=
  {| epidemiology.computeRR :=
       fun _ => JS.Normal {| epidemiology.value := 1%js;
                             epidemiology.lower := 1%js;
                             epidemiology.upper := 1%js |};
     epidemiology.computeOR :=
       fun _ => JS.Normal {| epidemiology.value := 1%js;
                             epidemiology.lower := 1%js;
                             epidemiology.upper := 1%js |};
     epidemiology.formatPercent := fun _ => JS.Normal "percent" |}.

(** The example the copy with the exposure fields gives for the risk ratio. *)
Definition exposure_example : gmap string epidemiology.jsvalue :=
  {[ "Exposed_cases" := epidemiology.Number 45%js;
     "Unexposed_cases" := epidemiology.Number 55%js;
     "Exposed_control" := epidemiology.Number 20%js;
     "Unexposed_control" := epidemiology.Number 80%js ]}.

(** The example the copy with the fields a, b, c, d gives for the risk
    ratio. *)
Definition abcd_example : gmap string epidemiology.jsvalue :=
  {[ "a" := epidemiology.Number 45%js;
     "b" := epidemiology.Number 55%js;
     "c" := epidemiology.Number 20%js;
     "d" := epidemiology.Number 80%js ]}.

(** ** Rounding: the bits lost by a shift

    A shift record is inexact when its round bit or its sticky bit is
    set. *)
Definition inexact (mrs : shr_record) : bool := shr_r mrs || shr_s mrs.

(** * Properties *)

(** Case analysis on a chain of calls that returned normally. *)
Ltac returned_normally H :=
  repeat match type of H with
         | JS.bind ?m _ = JS.Normal _ =>
             let E := fresh "Hcall" in
             destruct m eqn:E; cbn [JS.bind] in H; [| discriminate H]
         end.

(** ** Numbers: comparisons, signs and special values *)

Section numbers.
Import JS.

Lemma strict_eq_zero (x : number) :
  (x === 0)%js = true <-> exists s, x = S754_zero s.
Proof.
  destruct x as [s | [|] | | [|] m e]; cbn; split; intros H;
    try discriminate; try (destruct H; discriminate); eauto.
Qed.

Lemma strict_neq_zero (x : number) :
  (x !== 0)%js = false <-> exists s, x = S754_zero s.
Proof.
  unfold strict_neq. rewrite negb_false_iff. apply strict_eq_zero.
Qed.

Lemma strict_eq_not_nan (x y : number) :
  (x === y)%js = true -> is_nan x = false /\ is_nan y = false.
Proof.
  destruct x as [s | s | | s m e], y as [s' | s' | | s' m' e'];
    cbn; intros H; try discriminate; split; reflexivity.
Qed.

Lemma ltb_leb (x y : number) : (x < y)%js = true -> (x <= y)%js = true.
Proof.
  unfold ltb, leb, SFltb, SFleb.
  destruct (SFcompare x y) as [[| |] |]; intros H; try discriminate; reflexivity.
Qed.

Lemma zero_ltb (x : number) :
  (0 < x)%js = true <-> x = PInf \/ exists m e, x = S754_finite false m e.
Proof.
  destruct x as [s | [|] | | [|] m e]; cbn; split; intros H;
    try discriminate; eauto;
    destruct H as [H | (m' & e' & H)]; discriminate.
Qed.

Lemma zero_ltb_nonzero (x : number) : (0 < x)%js = true -> (x !== 0)%js = true.
Proof.
  intros H. apply zero_ltb in H. destruct H as [-> | (m & e & ->)]; reflexivity.
Qed.

Lemma zero_ltb_sign_clear (x : number) : (0 < x)%js = true -> sign_clear x = true.
Proof.
  intros H. apply zero_ltb in H. destruct H as [-> | (m & e & ->)]; reflexivity.
Qed.

Lemma not_negative_leb (x : number) :
  not_negative x = true <-> is_nan x = true \/ (0 <= x)%js = true.
Proof.
  destruct x as [[|] | [|] | | [|] m e]; cbn; split; intros H;
    try discriminate; auto; destruct H; discriminate.
Qed.

Lemma sign_clear_not_negative (x : number) :
  sign_clear x = true -> not_negative x = true.
Proof. destruct x as [[|] | [|] | | [|] m e]; cbn; auto. Qed.

Lemma not_negative_nonzero (x : number) :
  not_negative x = true -> (x === 0)%js = false -> sign_clear x = true.
Proof.
  destruct x as [[|] | [|] | | [|] m e]; cbn; intros H1 H2;
    try discriminate; reflexivity.
Qed.

(** Rounding keeps the sign it is given. *)
Lemma round_sign_clear (m e : Z) (l : location) :
  sign_clear (binary_round_aux prec emax false m e l) = true.
Proof.
  unfold binary_round_aux.
  destruct (shr_fexp prec emax m e l) as [mrs' e'].
  destruct (shr_fexp prec emax _ e' loc_Exact) as [mrs'' e''].
  destruct (shr_m mrs''); [reflexivity | | reflexivity].
  destruct (Z.leb e'' (emax - prec)); reflexivity.
Qed.

Lemma normalize_pos_sign_clear (p : positive) (e : Z) :
  sign_clear (binary_normalize prec emax (Zpos p) e false) = true.
Proof.
  unfold binary_normalize, binary_round.
  destruct (shl_align p e _) as [mz ez]. apply round_sign_clear.
Qed.

Lemma add_not_negative (x y : number) :
  not_negative x = true -> not_negative y = true ->
  not_negative (x + y)%js = true.
Proof.
  destruct x as [[|] | [|] | | [|] m e], y as [[|] | [|] | | [|] m' e'];
    cbn; intros Hx Hy; try discriminate; try reflexivity.
  apply sign_clear_not_negative.
  unfold add, SFadd, cond_Zopp. apply normalize_pos_sign_clear.
Qed.

Lemma mul_not_negative (x y : number) :
  not_negative x = true -> not_negative y = true ->
  not_negative (x * y)%js = true.
Proof.
  destruct x as [[|] | [|] | | [|] m e], y as [[|] | [|] | | [|] m' e'];
    cbn; intros Hx Hy; try discriminate; try reflexivity.
  apply sign_clear_not_negative. unfold mul, SFmul. cbn [xorb].
  apply round_sign_clear.
Qed.

Lemma mul_sign_clear (x y : number) :
  sign_clear x = true -> sign_clear y = true -> sign_clear (x * y)%js = true.
Proof.
  destruct x as [[|] | [|] | | [|] m e], y as [[|] | [|] | | [|] m' e'];
    cbn; intros Hx Hy; try discriminate; try reflexivity.
  unfold mul, SFmul. cbn [xorb]. apply round_sign_clear.
Qed.

Lemma div_not_negative (x y : number) :
  not_negative x = true -> sign_clear y = true ->
  not_negative (x / y)%js = true.
Proof.
  destruct x as [[|] | [|] | | [|] m e], y as [[|] | [|] | | [|] m' e'];
    cbn; intros Hx Hy; try discriminate; try reflexivity.
  apply sign_clear_not_negative. unfold div, SFdiv.
  destruct (SFdiv_core_binary prec emax (Zpos m) e (Zpos m') e') as [[mz ez] lz].
  cbn [xorb]. apply round_sign_clear.
Qed.

Lemma abs_sign_clear (x : number) : sign_clear (Math_abs x) = true.
Proof. destruct x as [s | s | | s m e]; reflexivity. Qed.

(** [Math.max(0, v)]: NaN for NaN, [v] when it is above 0, and +0
    otherwise. *)
Lemma max_zero_cases (v : number) :
  (is_nan v = true /\ Math_max 0 v = NaN)
  \/ ((0 < v)%js = true /\ Math_max 0 v = v)
  \/ (is_nan v = false /\ (0 < v)%js = false /\ Math_max 0 v = 0%js).
Proof.
  destruct v as [[|] | [|] | | [|] m e]; cbn; auto 10.
Qed.

Lemma max_zero_sign_clear (v : number) : sign_clear (Math_max 0 v) = true.
Proof.
  destruct (max_zero_cases v) as [[_ ->] | [[H ->] | (_ & _ & ->)]];
    [reflexivity | now apply zero_ltb_sign_clear | reflexivity].
Qed.

(** Two Numbers that are strictly equal and finite have difference zero. *)
Lemma sub_strict_eq (x y : number) :
  (x === y)%js = true -> isFinite x = true ->
  exists s, (x - y)%js = S754_zero s.
Proof.
  destruct x as [s | s | | s m e], y as [s' | s' | | s' m' e'];
    intros H Hf; try discriminate;
    try (destruct s, s'; try discriminate; cbn; eauto; fail).
  unfold strict_eq, SFeqb, SFcompare in H.
  assert (E : s = s' /\ e = e' /\ m = m').
  { destruct s, s'; try discriminate;
      destruct (Z.compare_spec e e') as [-> | |]; try discriminate;
      destruct (Pos.compare_cont Eq m m') eqn:Hm; try discriminate;
      apply Pos.compare_eq in Hm; auto. }
  destruct E as (<- & <- & <-).
  exists false. unfold sub, SFsub. rewrite Z.sub_diag. reflexivity.
Qed.

(** [toFixed] throws only beyond 100 digits. *)
Lemma toFixed_normal (h : Host) (x : number) (f : nat) :
  (f <= 100)%nat -> exists s, toFixed h x f = Normal s.
Proof.
  intros Hf. unfold toFixed.
  destruct (Nat.ltb_spec 100 f); [lia |].
  destruct x as [s | [|] | | s m e]; eauto.
  destruct (at_least _ m e); eauto.
Qed.

Lemma toFixed_not_finite (h : Host) (x : number) (f : nat) :
  (f <= 100)%nat -> isFinite x = false ->
  toFixed h x f = Normal (Number_toString h x).
Proof.
  intros Hf Hx. unfold toFixed.
  destruct (Nat.ltb_spec 100 f); [lia |].
  destruct x; try discriminate; reflexivity.
Qed.

Lemma toFixed_zero (h : Host) (s : bool) :
  toFixed h (S754_zero s) 4 = Normal "0.0000"%string.
Proof. reflexivity. Qed.

Lemma toFixed_one (h : Host) : toFixed h 1 4 = Normal "1.0000"%string.
Proof. vm_compute. reflexivity. Qed.

End numbers.

(** ** Binary64 rounding: shifts, order and range *)

Section rounding_shifts.
Import JS.
Local Open Scope Z_scope.

Lemma fexp_eq (e : Z) : fexp prec emax e = Z.max (e - 53) (-1074).
Proof. reflexivity. Qed.

Lemma fexp_mono (x y : Z) : x <= y -> fexp prec emax x <= fexp prec emax y.
Proof. rewrite !fexp_eq. lia. Qed.

Lemma digits2_bounds (p : positive) :
  2 ^ (Zpos (digits2_pos p) - 1) <= Zpos p < 2 ^ Zpos (digits2_pos p).
Proof.
  induction p as [p IH | p IH |]; cbn [digits2_pos].
  - rewrite Pos2Z.inj_succ.
    replace (Z.succ (Zpos (digits2_pos p)) - 1) with (Z.succ (Zpos (digits2_pos p) - 1)) by lia.
    rewrite !Z.pow_succ_r by lia. lia.
  - rewrite Pos2Z.inj_succ.
    replace (Z.succ (Zpos (digits2_pos p)) - 1) with (Z.succ (Zpos (digits2_pos p) - 1)) by lia.
    rewrite !Z.pow_succ_r by lia. lia.
  - cbn. lia.
Qed.

Lemma digits_log2 (m : Z) : 0 < m -> Zdigits2 m = Z.log2 m + 1.
Proof.
  intros H. destruct m as [| p | p]; try lia. cbn [Zdigits2].
  pose proof (digits2_bounds p) as B.
  assert (E : Z.log2 (Zpos p) = Zpos (digits2_pos p) - 1).
  { apply Z.log2_unique; [lia |].
    replace (Z.succ (Zpos (digits2_pos p) - 1)) with (Zpos (digits2_pos p)) by lia.
    exact B. }
  lia.
Qed.

Lemma digits_pos (m : Z) : 0 < m -> 0 < Zdigits2 m.
Proof. intros H. rewrite digits_log2 by assumption. pose proof (Z.log2_nonneg m). lia. Qed.

Lemma digits_le (a b : Z) : 0 < a -> a <= b -> Zdigits2 a <= Zdigits2 b.
Proof.
  intros Ha Hab. rewrite !digits_log2 by lia.
  pose proof (Z.log2_le_mono a b Hab). lia.
Qed.

Lemma digits_mul_pow2 (a k : Z) :
  0 < a -> 0 <= k -> Zdigits2 (a * 2 ^ k) = Zdigits2 a + k.
Proof.
  intros Ha Hk. rewrite !digits_log2 by nia.
  rewrite Z.log2_mul_pow2 by lia. lia.
Qed.

Lemma digits_lt_pow2 (a k : Z) : 0 < a -> (a < 2 ^ k <-> Zdigits2 a <= k).
Proof.
  intros Ha. rewrite digits_log2 by assumption.
  pose proof (Z.log2_lt_pow2 a k Ha). lia.
Qed.

Lemma digits_ge_pow2 (a k : Z) : 0 < a -> (2 ^ k <= a <-> k < Zdigits2 a).
Proof.
  intros Ha. rewrite digits_log2 by assumption.
  pose proof (Z.log2_le_pow2 a k Ha). lia.
Qed.

(** Shifting right by less than the number of digits. *)
Lemma digits_div_pow2 (a k : Z) :
  0 < a -> 0 <= k -> k < Zdigits2 a ->
  0 < a / 2 ^ k /\ Zdigits2 (a / 2 ^ k) = Zdigits2 a - k.
Proof.
  intros Ha Hk Hlt.
  assert (H2 : 2 ^ k <= a) by (apply digits_ge_pow2; lia).
  assert (Hq : 0 < a / 2 ^ k) by (apply Z.div_str_pos; lia).
  split; [exact Hq |].
  rewrite <- Z.shiftr_div_pow2 by lia.
  rewrite !digits_log2; [| lia | rewrite Z.shiftr_div_pow2 by lia; exact Hq].
  rewrite Z.log2_shiftr by lia.
  pose proof (proj1 (Z.log2_le_pow2 a k Ha) H2). lia.
Qed.

(** *** The shift with round and sticky bits *)

Lemma shr_1_spec (mrs : shr_record) :
  0 <= shr_m mrs ->
  shr_m (shr_1 mrs) = shr_m mrs / 2
  /\ (inexact (shr_1 mrs) = true ->
      inexact mrs = true \/ shr_m mrs mod 2 <> 0).
Proof.
  destruct mrs as [m r s]. cbn [shr_m]. intros Hm.
  assert (Hodd : forall p, Zpos p~1 / 2 = Zpos p /\ Zpos p~1 mod 2 <> 0).
  { intros p. rewrite Pos2Z.inj_xI.
    replace (2 * Zpos p + 1) with (1 + Zpos p * 2) by lia.
    rewrite Z.div_add, Z.mod_add by lia.
    change (1 / 2) with 0. change (1 mod 2) with 1. lia. }
  assert (Heven : forall p, Zpos p~0 / 2 = Zpos p).
  { intros p. rewrite Pos2Z.inj_xO.
    replace (2 * Zpos p) with (Zpos p * 2) by lia. apply Z.div_mul. lia. }
  unfold inexact.
  destruct m as [| [p | p |] | p]; try lia; cbn [shr_1 shr_m shr_r shr_s].
  - split; [reflexivity |]. intros H. left. exact H.
  - split; [symmetry; apply Hodd |]. intros _. right. apply Hodd.
  - split; [symmetry; apply Heven |]. intros H. left. exact H.
  - split; [reflexivity |]. intros _. right. change (1 mod 2) with 1. lia.
Qed.

Lemma mod_pow2_split (m a b : Z) :
  0 <= a -> 0 <= b ->
  m mod 2 ^ (a + b) = 0 -> m mod 2 ^ a = 0 /\ (m / 2 ^ a) mod 2 ^ b = 0.
Proof.
  intros Ha Hb H.
  assert (Pa : 0 < 2 ^ a) by (apply Z.pow_pos_nonneg; lia).
  assert (Pb : 0 < 2 ^ b) by (apply Z.pow_pos_nonneg; lia).
  rewrite Z.pow_add_r in H by lia.
  rewrite Z.rem_mul_r in H by lia.
  pose proof (Z.mod_pos_bound m (2 ^ a) Pa).
  pose proof (Z.mod_pos_bound (m / 2 ^ a) (2 ^ b) Pb).
  nia.
Qed.

Lemma iter_shr_1_spec (p : positive) :
  forall mrs : shr_record,
    0 <= shr_m mrs ->
    shr_m (SpecFloat.iter_pos shr_1 p mrs) = shr_m mrs / 2 ^ Zpos p
    /\ (inexact (SpecFloat.iter_pos shr_1 p mrs) = true ->
        inexact mrs = true \/ shr_m mrs mod 2 ^ Zpos p <> 0).
Proof.
  induction p as [p IH | p IH |]; intros mrs Hm; cbn [SpecFloat.iter_pos].
  - destruct (shr_1_spec mrs Hm) as [E1 I1].
    assert (H1 : 0 <= shr_m (shr_1 mrs)) by (rewrite E1; apply Z.div_pos; lia).
    destruct (IH _ H1) as [E2 I2].
    assert (H2 : 0 <= shr_m (SpecFloat.iter_pos shr_1 p (shr_1 mrs)))
      by (rewrite E2; apply Z.div_pos; [lia | apply Z.pow_pos_nonneg; lia]).
    destruct (IH _ H2) as [E3 I3].
    assert (Pp : 0 < 2 ^ Zpos p) by (apply Z.pow_pos_nonneg; lia).
    replace (Zpos p~1) with (1 + (Zpos p + Zpos p)) by lia.
    split.
    + rewrite E3, E2, E1. rewrite !Z.pow_add_r by lia.
      rewrite !Z.div_div by lia. reflexivity.
    + intros H. destruct (Z.eq_dec (shr_m mrs mod 2 ^ (1 + (Zpos p + Zpos p))) 0)
        as [Z0 | NZ]; [| now right].
      left.
      destruct (mod_pow2_split _ 1 (Zpos p + Zpos p) ltac:(lia) ltac:(lia) Z0)
        as [Za Zb].
      destruct (mod_pow2_split _ (Zpos p) (Zpos p) ltac:(lia) ltac:(lia) Zb)
        as [Zc Zd].
      change (2 ^ 1) with 2 in Za, Zb, Zc, Zd.
      destruct (I3 H) as [H3 | H3]; [| rewrite E2, E1 in H3; contradiction].
      destruct (I2 H3) as [H4 | H4]; [| rewrite E1 in H4; contradiction].
      destruct (I1 H4) as [H5 | H5]; [exact H5 | contradiction].
  - destruct (IH _ Hm) as [E2 I2].
    assert (H2 : 0 <= shr_m (SpecFloat.iter_pos shr_1 p mrs))
      by (rewrite E2; apply Z.div_pos; [lia | apply Z.pow_pos_nonneg; lia]).
    destruct (IH _ H2) as [E3 I3].
    assert (Pp : 0 < 2 ^ Zpos p) by (apply Z.pow_pos_nonneg; lia).
    replace (Zpos p~0) with (Zpos p + Zpos p) by lia.
    split.
    + rewrite E3, E2. rewrite !Z.pow_add_r by lia.
      rewrite !Z.div_div by lia. reflexivity.
    + intros H. destruct (Z.eq_dec (shr_m mrs mod 2 ^ (Zpos p + Zpos p)) 0)
        as [Z0 | NZ]; [| now right].
      left.
      destruct (mod_pow2_split _ (Zpos p) (Zpos p) ltac:(lia) ltac:(lia) Z0)
        as [Zc Zd].
      destruct (I3 H) as [H3 | H3]; [| rewrite E2 in H3; contradiction].
      destruct (I2 H3) as [H4 | H4]; [exact H4 | contradiction].
  - destruct (shr_1_spec mrs Hm) as [E1 I1]. split; [exact E1 | exact I1].
Qed.

Lemma shr_record_of_loc_spec (m : Z) (l : location) :
  shr_m (shr_record_of_loc m l) = m
  /\ (inexact (shr_record_of_loc m l) = true -> l <> loc_Exact).
Proof.
  destruct l as [| [| |]]; cbn; split; try reflexivity; intros H;
    discriminate.
Qed.

Lemma loc_of_shr_record_exact (mrs : shr_record) :
  loc_of_shr_record mrs <> loc_Exact -> inexact mrs = true.
Proof.
  destruct mrs as [m [|] [|]]; cbn; intros H; try reflexivity. now contradiction H.
Qed.

Lemma round_nearest_even_spec (m : Z) (l : location) :
  round_nearest_even m l = m
  \/ (round_nearest_even m l = m + 1 /\ l <> loc_Exact).
Proof.
  destruct l as [| [| |]]; cbn [round_nearest_even].
  - now left.
  - destruct (Z.even m); [now left | right; split; [reflexivity | discriminate]].
  - now left.
  - right. split; [reflexivity | discriminate].
Qed.

(** [shr_fexp] brings the exponent up to [fexp] of the magnitude, when it
    is below, and drops the low bits. *)
Lemma shr_fexp_spec (m e : Z) (l : location) :
  0 <= m ->
  let e' := Z.max e (fexp prec emax (Zdigits2 m + e)) in
  snd (shr_fexp prec emax m e l) = e'
  /\ shr_m (fst (shr_fexp prec emax m e l)) = m / 2 ^ (e' - e)
  /\ (inexact (fst (shr_fexp prec emax m e l)) = true ->
      l <> loc_Exact \/ m mod 2 ^ (e' - e) <> 0).
Proof.
  intros Hm e'. unfold shr_fexp, shr.
  destruct (shr_record_of_loc_spec m l) as [E0 I0].
  destruct (fexp prec emax (Zdigits2 m + e) - e) as [| n | n] eqn:En;
    cbn [fst snd].
  - assert (Ee : e' = e) by lia. replace (e' - e) with 0 by lia.
    split; [lia |]. rewrite Z.pow_0_r, Z.div_1_r. split; [exact E0 |].
    intros Hi. left. now apply I0.
  - assert (Ee : e' = e + Zpos n) by lia. replace (e' - e) with (Zpos n) by lia.
    split; [lia |].
    destruct (iter_shr_1_spec n (shr_record_of_loc m l)) as [E1 I1];
      [rewrite E0; exact Hm |].
    rewrite E0 in E1, I1. split; [exact E1 |].
    intros Hi. destruct (I1 Hi) as [H1 | H1]; [left; now apply I0 | now right].
  - assert (Ee : e' = e) by lia. replace (e' - e) with 0 by lia.
    split; [lia |]. rewrite Z.pow_0_r, Z.div_1_r. split; [exact E0 |].
    intros Hi. left. now apply I0.
Qed.

End rounding_shifts.

Section rounding_order.
Import JS.
Local Open Scope Z_scope.

(** What [binary_round_aux] computes on a mantissa that is not negative. *)
Lemma binary_round_aux_spec (s : bool) (M E : Z) (l : location) :
  0 <= M ->
  let e1 := Z.max E (fexp prec emax (Zdigits2 M + E)) in
  let m1 := M / 2 ^ (e1 - E) in
  exists m1' : Z,
    (m1' = m1
     \/ (m1' = m1 + 1 /\ (l <> loc_Exact \/ M mod 2 ^ (e1 - E) <> 0)))
    /\ let e2 := Z.max e1 (fexp prec emax (Zdigits2 m1' + e1)) in
       binary_round_aux prec emax s M E l
       = match m1' / 2 ^ (e2 - e1) with
         | Z0 => S754_zero s
         | Zpos m => if e2 <=? emax - prec then S754_finite s m e2
                     else S754_infinity s
         | Zneg _ => S754_nan
         end.
Proof.
  intros HM e1 m1. unfold binary_round_aux.
  destruct (shr_fexp_spec M E l HM) as (S1 & S2 & S3).
  fold e1 in S1, S2, S3. fold m1 in S2.
  destruct (shr_fexp prec emax M E l) as [mrs' e'] eqn:Eq1.
  cbn [fst snd] in S1, S2, S3. subst e'.
  set (m1' := round_nearest_even (shr_m mrs') (loc_of_shr_record mrs')).
  assert (Hm1 : 0 <= m1).
  { unfold m1. apply Z.div_pos; [lia | apply Z.pow_pos_nonneg; lia]. }
  assert (Hr : m1' = m1
               \/ (m1' = m1 + 1 /\ (l <> loc_Exact \/ M mod 2 ^ (e1 - E) <> 0))).
  { unfold m1'.
    destruct (round_nearest_even_spec (shr_m mrs') (loc_of_shr_record mrs'))
      as [R | [R Hl]]; rewrite R, S2; [now left | right].
    split; [reflexivity |]. apply S3. now apply loc_of_shr_record_exact. }
  exists m1'. split; [exact Hr |].
  assert (Hm1' : 0 <= m1') by (destruct Hr as [-> | [-> _]]; lia).
  destruct (shr_fexp_spec m1' e1 loc_Exact Hm1') as (T1 & T2 & _).
  destruct (shr_fexp prec emax m1' e1 loc_Exact) as [mrs'' e''] eqn:Eq2.
  cbn [fst snd] in T1, T2. subst e''. rewrite T2. reflexivity.
Qed.

(** A canonical mantissa: the exponent is [fexp] of the magnitude. *)
Lemma canonical_fexp (m : positive) (e : Z) :
  canonical_mantissa prec emax m e = true ->
  fexp prec emax (Zdigits2 (Zpos m) + e) = e.
Proof. unfold canonical_mantissa. cbn [Zdigits2]. apply Z.eqb_eq. Qed.

Lemma bounded_spec (m : positive) (e : Z) :
  bounded prec emax m e = true ->
  fexp prec emax (Zdigits2 (Zpos m) + e) = e /\ e <= 971.
Proof.
  unfold bounded. rewrite andb_true_iff. intros [H1 H2].
  split; [now apply canonical_fexp |].
  apply Z.leb_le in H2. exact H2.
Qed.

Lemma pow2_pos (k : Z) : 0 <= k -> 0 < 2 ^ k.
Proof. intros H. apply Z.pow_pos_nonneg; lia. Qed.

Lemma pow2_split (a b : Z) : 0 <= a -> 0 <= b -> 2 ^ (a + b) = 2 ^ a * 2 ^ b.
Proof. intros. apply Z.pow_add_r; lia. Qed.

(** Rounding a value that is at most a representable [mp * 2^ep] gives at
    most that number. *)
Lemma round_le_representable (M E : Z) (l : location) (mp : positive) (ep : Z) :
  0 <= M ->
  bounded prec emax mp ep = true ->
  E <= ep ->
  M <= Zpos mp * 2 ^ (ep - E) ->
  (l <> loc_Exact -> M < Zpos mp * 2 ^ (ep - E)) ->
  SFleb (binary_round_aux prec emax false M E l) (S754_finite false mp ep) = true.
Proof.
  intros HM Hb HE HP Hl.
  destruct (bounded_spec mp ep Hb) as [Hc Hmax].
  destruct (binary_round_aux_spec false M E l HM) as (m1' & Hr & ->).
  set (e1 := Z.max E (fexp prec emax (Zdigits2 M + E))) in *.
  set (m1 := M / 2 ^ (e1 - E)) in *.
  set (e2 := Z.max e1 (fexp prec emax (Zdigits2 m1' + e1))).
  (* e1 <= ep *)
  assert (He1 : e1 <= ep).
  { unfold e1. apply Z.max_lub; [exact HE |].
    rewrite <- Hc. apply fexp_mono.
    destruct (Z.eq_dec M 0) as [-> | NZ]; [cbn [Zdigits2]; lia |].
    assert (Hd : Zdigits2 M <= Zdigits2 (Zpos mp * 2 ^ (ep - E)))
      by (apply digits_le; lia).
    rewrite digits_mul_pow2 in Hd by lia. lia. }
  assert (HE1 : E <= e1) by (unfold e1; lia).
  (* m1' <= mp * 2^(ep - e1) *)
  assert (Hsplit : Zpos mp * 2 ^ (ep - E)
                   = Zpos mp * 2 ^ (ep - e1) * 2 ^ (e1 - E)).
  { replace (ep - E) with ((ep - e1) + (e1 - E)) by lia.
    rewrite pow2_split by lia. ring. }
  pose proof (pow2_pos (e1 - E) ltac:(lia)) as Pk.
  pose proof (pow2_pos (ep - e1) ltac:(lia)) as Pk'.
  pose proof (Z.div_mod M (2 ^ (e1 - E)) ltac:(lia)) as Hdm.
  pose proof (Z.mod_pos_bound M (2 ^ (e1 - E)) Pk) as Hmod.
  fold m1 in Hdm.
  assert (Hm1' : 0 <= m1' <= Zpos mp * 2 ^ (ep - e1)).
  { assert (0 <= m1) by (unfold m1; apply Z.div_pos; lia).
    destruct Hr as [-> | [-> Hin]]; [split; [lia |] | split; [lia |]].
    - rewrite Hsplit in HP. nia.
    - rewrite Hsplit in HP, Hl. destruct Hin as [Hin | Hin].
      + specialize (Hl Hin). nia.
      + nia. }
  (* second step *)
  assert (He2 : e2 <= ep).
  { unfold e2. apply Z.max_lub; [exact He1 |].
    rewrite <- Hc. apply fexp_mono.
    destruct (Z.eq_dec m1' 0) as [-> | NZ]; [cbn [Zdigits2]; lia |].
    assert (Hd : Zdigits2 m1' <= Zdigits2 (Zpos mp * 2 ^ (ep - e1)))
      by (apply digits_le; lia).
    rewrite digits_mul_pow2 in Hd by lia. lia. }
  assert (HE2 : e1 <= e2) by (unfold e2; lia).
  pose proof (pow2_pos (e2 - e1) ltac:(lia)) as Pk2.
  assert (Hm2 : 0 <= m1' / 2 ^ (e2 - e1) <= Zpos mp * 2 ^ (ep - e2)).
  { split; [apply Z.div_pos; lia |].
    apply Z.div_le_upper_bound; [lia |].
    replace (ep - e1) with ((e2 - e1) + (ep - e2)) in Hm1' by lia.
    rewrite pow2_split in Hm1' by lia. nia. }
  destruct (m1' / 2 ^ (e2 - e1)) as [| m | m] eqn:Em2; [reflexivity | | lia].
  replace (e2 <=? emax - prec) with true
    by (symmetry; apply Z.leb_le; unfold emax, prec; lia).
  unfold SFleb, SFcompare.
  destruct (Z.compare_spec e2 ep) as [Heq | Hlt | Hgt]; [| reflexivity | lia].
  rewrite Heq, Z.sub_diag, Z.pow_0_r, Z.mul_1_r in Hm2.
  destruct (Pos.compare_cont Eq m mp) eqn:Hcmp; try reflexivity.
  change (Pos.compare_cont Eq m mp) with (Pos.compare m mp) in Hcmp.
  apply Pos.compare_gt_iff in Hcmp. lia.
Qed.

(** Rounding a value that is at least a representable [mp * 2^ep] gives at
    least that number. *)
Lemma round_ge_representable (M E : Z) (l : location) (mp : positive) (ep : Z) :
  0 < M ->
  canonical_mantissa prec emax mp ep = true ->
  Zpos mp * 2 ^ (ep - Z.min E ep) <= M * 2 ^ (E - Z.min E ep) ->
  SFleb (S754_finite false mp ep) (binary_round_aux prec emax false M E l) = true.
Proof.
  intros HM Hc HP.
  apply canonical_fexp in Hc.
  assert (Hemin : -1074 <= ep) by (rewrite <- Hc, fexp_eq; lia).
  destruct (binary_round_aux_spec false M E l ltac:(lia)) as (m1' & Hr & ->).
  set (e0 := Z.min E ep) in *.
  set (e1 := Z.max E (fexp prec emax (Zdigits2 M + E))) in *.
  set (m1 := M / 2 ^ (e1 - E)) in *.
  set (e2 := Z.max e1 (fexp prec emax (Zdigits2 m1' + e1))).
  pose proof (pow2_pos (ep - e0) ltac:(lia)) as P0.
  pose proof (pow2_pos (E - e0) ltac:(lia)) as P0'.
  (* magnitudes *)
  assert (Hmag : Zdigits2 (Zpos mp) + ep <= Zdigits2 M + E).
  { assert (Hd : Zdigits2 (Zpos mp * 2 ^ (ep - e0)) <= Zdigits2 (M * 2 ^ (E - e0)))
      by (apply digits_le; nia).
    rewrite !digits_mul_pow2 in Hd by lia. lia. }
  assert (He1 : ep <= e1).
  { unfold e1. rewrite <- Hc at 1.
    pose proof (fexp_mono _ _ Hmag). lia. }
  assert (HE1 : E <= e1) by (unfold e1; lia).
  pose proof (pow2_pos (e1 - E) ltac:(lia)) as Pk.
  (* the shift leaves digits *)
  assert (Hk : e1 - E < Zdigits2 M).
  { pose proof (digits_pos M HM).
    destruct (Z.eq_dec e1 E) as [-> | NE]; [lia |].
    assert (Hf : e1 = fexp prec emax (Zdigits2 M + E)) by (unfold e1; lia).
    rewrite fexp_eq in Hf.
    destruct (Z.max_spec (Zdigits2 M + E - 53) (-1074)) as [[_ Hx] | [_ Hx]];
      rewrite Hx in Hf; [| lia].
    (* e1 = -1074 = ep, E < ep *)
    assert (ep = -1074) by lia.
    assert (He0 : e0 = E) by (unfold e0; lia).
    rewrite He0, Z.sub_diag, Z.pow_0_r, Z.mul_1_r in HP.
    apply digits_ge_pow2; [lia |].
    pose proof (pow2_pos (ep - E) ltac:(lia)).
    replace (e1 - E) with (ep - E) by lia. nia. }
  destruct (digits_div_pow2 M (e1 - E) HM ltac:(lia) Hk) as [Hm1pos Hd1].
  fold m1 in Hm1pos, Hd1.
  assert (Hm1' : m1 <= m1') by (destruct Hr as [-> | [-> _]]; lia).
  assert (HE2 : e1 <= e2) by (unfold e2; lia).
  pose proof (pow2_pos (e2 - e1) ltac:(lia)) as Pk2.
  assert (Hk2 : e2 - e1 < Zdigits2 m1').
  { pose proof (digits_pos m1' ltac:(lia)).
    destruct (Z.eq_dec e2 e1) as [-> | NE]; [lia |].
    assert (Hf : e2 = fexp prec emax (Zdigits2 m1' + e1)) by (unfold e2; lia).
    rewrite fexp_eq in Hf. lia. }
  destruct (digits_div_pow2 m1' (e2 - e1) ltac:(lia) ltac:(lia) Hk2) as [Hm2pos _].
  destruct (m1' / 2 ^ (e2 - e1)) as [| m | m] eqn:Em2; try lia.
  destruct (e2 <=? emax - prec); [| reflexivity].
  unfold SFleb, SFcompare.
  destruct (Z.compare_spec ep e2) as [Heq | Hlt | Hgt]; [| reflexivity | lia].
  assert (E1 : e1 = ep) by lia. assert (E2 : e2 = e1) by lia.
  rewrite E2, Z.sub_diag, Z.pow_0_r, Z.div_1_r in Em2.
  assert (He0 : e0 = E) by (unfold e0; lia).
  rewrite He0, Z.sub_diag, Z.pow_0_r, Z.mul_1_r in HP.
  assert (Hm1ge : Zpos mp <= m1).
  { unfold m1. apply Z.div_le_lower_bound; [lia |]. rewrite E1. lia. }
  destruct (Pos.compare_cont Eq mp m) eqn:Hcmp; try reflexivity.
  change (Pos.compare_cont Eq mp m) with (Pos.compare mp m) in Hcmp.
  apply Pos.compare_gt_iff in Hcmp. lia.
Qed.

End rounding_order.

Section rounding_range.
Import JS.
Local Open Scope Z_scope.

(** [binary_round_aux] returns a binary64 number when its exponent is not
    above the one of the format. *)
Lemma binary_round_aux_valid (s : bool) (M E : Z) (l : location) :
  0 <= M -> E <= fexp prec emax (Zdigits2 M + E) ->
  is_binary64 (binary_round_aux prec emax s M E l) = true.
Proof.
  intros HM HE.
  destruct (binary_round_aux_spec s M E l HM) as (m1' & Hr & ->).
  set (e1 := Z.max E (fexp prec emax (Zdigits2 M + E))) in *.
  set (m1 := M / 2 ^ (e1 - E)) in *.
  set (e2 := Z.max e1 (fexp prec emax (Zdigits2 m1' + e1))).
  assert (He1 : e1 = fexp prec emax (Zdigits2 M + E)) by (unfold e1; lia).
  assert (Hemin : -1074 <= e1) by (rewrite He1, fexp_eq; lia).
  pose proof (pow2_pos (e1 - E) ltac:(lia)) as Pk.
  assert (Hinv : m1' = 0
                 \/ (0 < m1' /\ e1 <= fexp prec emax (Zdigits2 m1' + e1))).
  { destruct (Z.eq_dec M 0) as [EM | NZ].
    - assert (Hm1 : m1 = 0) by (unfold m1; rewrite EM; apply Z.div_0_l; lia).
      rewrite Hm1 in Hr.
      destruct Hr as [-> | [-> _]]; [now left | right].
      split; [lia |]. rewrite EM in He1, HE. cbn [Zdigits2 Z.add] in He1, HE.
      rewrite fexp_eq in He1, HE.
      change (Zdigits2 (0 + 1)) with 1. rewrite fexp_eq. lia.
    - destruct (Z.ltb_spec (e1 - E) (Zdigits2 M)) as [Hk | Hk].
      + destruct (digits_div_pow2 M (e1 - E) ltac:(lia) ltac:(lia) Hk)
          as [Hpos Hd].
        fold m1 in Hpos, Hd. right.
        assert (Hle : m1 <= m1') by (destruct Hr as [-> | [-> _]]; lia).
        split; [lia |].
        pose proof (digits_le m1 m1' Hpos Hle) as Hdd.
        pose proof (fexp_mono (Zdigits2 m1 + e1) (Zdigits2 m1' + e1) ltac:(lia)) as Hf.
        replace (Zdigits2 m1 + e1) with (Zdigits2 M + E) in Hf by lia.
        lia.
      + assert (Hm1 : m1 = 0).
        { unfold m1. apply Z.div_small. split; [lia |].
          apply digits_lt_pow2; lia. }
        rewrite Hm1 in Hr.
        destruct Hr as [-> | [-> _]]; [now left | right].
        split; [lia |]. rewrite fexp_eq in He1.
        change (Zdigits2 (0 + 1)) with 1. rewrite fexp_eq. lia. }
  destruct Hinv as [-> | [Hpos Hinv]].
  - rewrite Z.div_0_l; [reflexivity |].
    apply Z.pow_nonzero; [lia |]. unfold e2. lia.
  - assert (He2 : e2 = fexp prec emax (Zdigits2 m1' + e1)) by (unfold e2; lia).
    assert (Hk2 : e2 - e1 < Zdigits2 m1').
    { pose proof (digits_pos m1' Hpos). rewrite He2, fexp_eq. lia. }
    destruct (digits_div_pow2 m1' (e2 - e1) Hpos ltac:(lia) Hk2) as [Hm2 Hd2].
    destruct (m1' / 2 ^ (e2 - e1)) as [| m | m] eqn:Em2; try lia.
    destruct (e2 <=? emax - prec) eqn:Hmax; [| reflexivity].
    unfold is_binary64; cbn [valid_binary]. unfold bounded, canonical_mantissa.
    rewrite Hmax, andb_true_r. apply Z.eqb_eq.
    change (Zpos (digits2_pos m)) with (Zdigits2 (Zpos m)).
    rewrite Hd2. replace (Zdigits2 m1' - (e2 - e1) + e2) with (Zdigits2 m1' + e1) by lia.
    now symmetry.
Qed.

Lemma iter_xO (d mx : positive) :
  Zpos (Pos.iter xO mx d) = Zpos mx * 2 ^ Zpos d.
Proof.
  induction d as [| d IH] using Pos.peano_ind.
  - cbn [Pos.iter]. rewrite Pos2Z.inj_xO. change (2 ^ 1) with 2. lia.
  - rewrite Pos.iter_succ, Pos2Z.inj_xO, IH, Pos2Z.inj_succ, Z.pow_succ_r by lia.
    lia.
Qed.

(** The alignment [shl_align] keeps the value. *)
Lemma shl_align_spec (mx : positive) (ex ex' : Z) :
  snd (shl_align mx ex ex') = Z.min ex ex'
  /\ Zpos (fst (shl_align mx ex ex')) = Zpos mx * 2 ^ (ex - Z.min ex ex').
Proof.
  unfold shl_align.
  destruct (ex' - ex) as [| p | p] eqn:Ed; cbn [fst snd].
  - replace (Z.min ex ex') with ex by lia. rewrite Z.sub_diag. cbn. lia.
  - replace (Z.min ex ex') with ex by lia. rewrite Z.sub_diag. cbn. lia.
  - replace (Z.min ex ex') with ex' by lia. split; [reflexivity |].
    rewrite iter_xO. replace (ex - ex') with (Zpos p) by lia. reflexivity.
Qed.

Lemma binary_round_spec (s : bool) (m : positive) (e : Z) :
  exists (M E : Z),
    binary_round prec emax s m e = binary_round_aux prec emax s M E loc_Exact
    /\ E = Z.min e (fexp prec emax (Zdigits2 (Zpos m) + e))
    /\ M = Zpos m * 2 ^ (e - E).
Proof.
  unfold binary_round.
  destruct (shl_align_spec m e (fexp prec emax (Zpos (digits2_pos m) + e)))
    as [S1 S2].
  destruct (shl_align m e _) as [mz ez]. cbn [fst snd] in S1, S2.
  exists (Zpos mz), ez. split; [reflexivity |]. split; [exact S1 |].
  rewrite S2, S1. reflexivity.
Qed.

Lemma binary_round_valid (s : bool) (m : positive) (e : Z) :
  is_binary64 (binary_round prec emax s m e) = true.
Proof.
  destruct (binary_round_spec s m e) as (M & E & -> & HE & HM).
  assert (0 <= e - E) by lia.
  pose proof (pow2_pos (e - E) ltac:(lia)).
  apply binary_round_aux_valid; [nia |].
  rewrite HM, digits_mul_pow2 by lia.
  replace (Zdigits2 (Zpos m) + (e - E) + E) with (Zdigits2 (Zpos m) + e) by lia.
  lia.
Qed.

Lemma binary_normalize_valid (m e : Z) (sz : bool) :
  is_binary64 (binary_normalize prec emax m e sz) = true.
Proof.
  destruct m as [| p | p]; cbn [binary_normalize];
    [reflexivity | apply binary_round_valid | apply binary_round_valid].
Qed.

(** A binary64 mantissa has at most 53 digits, and exactly 53 above the
    least exponent. *)
Lemma valid_finite (s : bool) (m : positive) (e : Z) :
  is_binary64 (S754_finite s m e) = true ->
  fexp prec emax (Zdigits2 (Zpos m) + e) = e
  /\ 0 < Zdigits2 (Zpos m) <= 53 /\ -1074 <= e <= 971
  /\ (-1074 < e -> Zdigits2 (Zpos m) = 53).
Proof.
  unfold is_binary64; cbn [valid_binary]. intros H. apply bounded_spec in H. destruct H as [Hc He].
  pose proof (digits_pos (Zpos m) ltac:(lia)).
  split; [exact Hc |]. rewrite fexp_eq in Hc. lia.
Qed.

Lemma add_valid (x y : number) :
  is_binary64 x = true -> is_binary64 y = true ->
  is_binary64 (add x y) = true.
Proof.
  intros Hx Hy. unfold add.
  destruct x as [sx | sx | | sx mx ex], y as [sy | sy | | sy my ey];
    try exact Hx; try exact Hy; try reflexivity;
    try (destruct sx, sy; reflexivity).
  cbn [SFadd]. apply binary_normalize_valid.
Qed.

Lemma sub_valid (x y : number) :
  is_binary64 x = true -> is_binary64 y = true ->
  is_binary64 (sub x y) = true.
Proof.
  intros Hx Hy. unfold sub.
  destruct x as [sx | sx | | sx mx ex], y as [sy | sy | | sy my ey];
    try exact Hx; try exact Hy; try reflexivity;
    try (destruct sx, sy; reflexivity).
  cbn [SFsub]. apply binary_normalize_valid.
Qed.

Lemma digits_mul_ge (a b : Z) :
  0 < a -> 0 < b -> Zdigits2 a + Zdigits2 b - 1 <= Zdigits2 (a * b).
Proof.
  intros Ha Hb. rewrite !digits_log2 by nia.
  pose proof (Z.log2_mul_below a b Ha Hb). lia.
Qed.

Lemma mul_valid (x y : number) :
  is_binary64 x = true -> is_binary64 y = true ->
  is_binary64 (mul x y) = true.
Proof.
  intros Hx Hy. unfold mul.
  destruct x as [sx | sx | | sx mx ex], y as [sy | sy | | sy my ey];
    try reflexivity.
  cbn [SFmul].
  destruct (valid_finite _ _ _ Hx) as (_ & Hdx & Hex & Hnx).
  destruct (valid_finite _ _ _ Hy) as (_ & Hdy & Hey & Hny).
  apply binary_round_aux_valid; [lia |].
  rewrite Pos2Z.inj_mul.
  pose proof (digits_mul_ge (Zpos mx) (Zpos my) ltac:(lia) ltac:(lia)) as Hd.
  rewrite fexp_eq. lia.
Qed.

Lemma abs_valid (x : number) :
  is_binary64 x = true -> is_binary64 (Math_abs x) = true.
Proof. destruct x as [s | s | | s m e]; intros H; exact H. Qed.

(** The quotient and remainder inside [SFdiv]. *)
Lemma div_core_spec (mx my : positive) (ex ey : Z) :
  let g := Zdigits2 (Zpos mx) + ex - (Zdigits2 (Zpos my) + ey) in
  let e' := Z.min (fexp prec emax g) (ex - ey) in
  let m' := Zpos mx * 2 ^ (ex - ey - e') in
  SFdiv_core_binary prec emax (Zpos mx) ex (Zpos my) ey
  = (m' / Zpos my, e', new_location (Zpos my) (m' mod Zpos my)).
Proof.
  intros g e' m'. unfold SFdiv_core_binary.
  fold g. fold e'.
  assert (Hs : 0 <= ex - ey - e') by (unfold e'; lia).
  assert (Em : match ex - ey - e' with
               | 0 => Zpos mx
               | Zpos _ => Z.shiftl (Zpos mx) (ex - ey - e')
               | Zneg _ => 0
               end = m').
  { unfold m'. destruct (ex - ey - e') as [| p | p] eqn:Es; try lia.
    rewrite Z.shiftl_mul_pow2 by lia. reflexivity. }
  rewrite Em. unfold Z.div, Z.modulo.
  destruct (Z.div_eucl m' (Zpos my)) as [q r]. reflexivity.
Qed.

Lemma new_location_exact (n r : Z) : new_location n r <> loc_Exact -> r <> 0.
Proof.
  intros H ->. apply H. unfold new_location, new_location_even, new_location_odd.
  destruct (Z.even n); reflexivity.
Qed.


End rounding_range.

Section order_of_products.
Import JS.
Local Open Scope Z_scope.

Lemma leb_refl_finite (s : bool) (m : positive) (e : Z) :
  SFleb (S754_finite s m e) (S754_finite s m e) = true.
Proof.
  unfold SFleb, SFcompare. rewrite Z.compare_refl.
  change (Pos.compare_cont Eq m m) with (Pos.compare m m).
  rewrite Pos.compare_refl. destruct s; reflexivity.
Qed.

(** A rounding with the sign set is a zero or below zero. *)
Lemma round_sign_set (M E : Z) (l : location) :
  0 <= M ->
  match binary_round_aux prec emax true M E l with
  | S754_zero _ | S754_infinity true | S754_finite true _ _ => True
  | _ => False
  end.
Proof.
  intros HM.
  destruct (binary_round_aux_spec true M E l HM) as (m1' & Hr & ->).
  cbv zeta.
  match goal with |- context [?a / ?b] => destruct (a / b) as [| m | m] eqn:Em end.
  - exact I.
  - match goal with |- context [?a <=? ?b] => destruct (a <=? b) end; exact I.
  - exfalso.
    assert (H0 : 0 <= m1').
    { assert (0 <= M / 2 ^ (Z.max E (fexp prec emax (Zdigits2 M + E)) - E)).
      { apply Z.div_pos; [lia | apply pow2_pos; lia]. }
      destruct Hr as [-> | [-> _]]; lia. }
    match type of Em with ?a / ?b = _ =>
      assert (0 <= a / b) by (apply Z.div_pos; [lia | apply pow2_pos; lia]) end.
    lia.
Qed.




End order_of_products.

Section order_of_sums.
Import JS.
Local Open Scope Z_scope.

Lemma round_opp (M E : Z) (l : location) :
  binary_round_aux prec emax true M E l
  = SFopp (binary_round_aux prec emax false M E l).
Proof.
  unfold binary_round_aux.
  destruct (shr_fexp prec emax M E l) as [mrs' e'].
  destruct (shr_fexp prec emax _ e' loc_Exact) as [mrs'' e''].
  destruct (shr_m mrs''); [reflexivity | | reflexivity].
  destruct (Z.leb e'' (emax - prec)); reflexivity.
Qed.

Lemma normalize_opp (M ez : Z) :
  M <> 0 ->
  binary_normalize prec emax (- M) ez false
  = SFopp (binary_normalize prec emax M ez false).
Proof.
  intros NZ. destruct M as [| p | p]; [lia | |];
    change (- Zpos p) with (Zneg p); change (- Zneg p) with (Zpos p); cbn [binary_normalize]; unfold binary_round;
    destruct (shl_align p ez _) as [mz e']; rewrite round_opp;
    [reflexivity |].
  destruct (binary_round_aux prec emax false (Zpos mz) e' loc_Exact)
    as [s | s | | s m e]; cbn [SFopp]; try rewrite negb_involutive; reflexivity.
Qed.

Lemma leb_opp (x y : number) :
  leb x y = true -> leb (SFopp y) (SFopp x) = true.
Proof.
  unfold leb, SFleb.
  destruct x as [[|] | [|] | | [|] m1 e1], y as [[|] | [|] | | [|] m2 e2];
    cbn; try discriminate; try reflexivity;
    change (Pos.compare_cont Eq) with Pos.compare;
    rewrite (Z.compare_antisym e1 e2), (Pos.compare_antisym m1 m2);
    destruct (Z.compare e1 e2); cbn; try discriminate; try reflexivity;
    destruct (Pos.compare m1 m2); cbn; try discriminate; reflexivity.
Qed.

(** Normalising an integer at most [mx * 2^(ex - ez)]. *)
Lemma normalize_le (M ez : Z) (mx : positive) (ex : Z) :
  bounded prec emax mx ex = true -> ez <= ex ->
  M <= Zpos mx * 2 ^ (ex - ez) ->
  SFleb (binary_normalize prec emax M ez false) (S754_finite false mx ex) = true.
Proof.
  intros Hb He HM. destruct M as [| p | p]; cbn [binary_normalize].
  - reflexivity.
  - destruct (binary_round_spec false p ez) as (M' & E & -> & HE & HM').
    pose proof (pow2_pos (ez - E) ltac:(lia)) as Pz.
    pose proof (pow2_pos (ex - ez) ltac:(lia)) as Px.
    apply round_le_representable; try exact Hb; try lia; try nia.
    + replace (ex - E) with ((ex - ez) + (ez - E)) by lia.
      rewrite pow2_split by lia. rewrite HM'. nia.
    + intros Hc. now contradiction Hc.
  - destruct (binary_round_spec true p ez) as (M' & E & -> & HE & HM').
    pose proof (pow2_pos (ez - E) ltac:(lia)) as Pz.
    pose proof (round_sign_set M' E loc_Exact ltac:(nia)) as Hs.
    destruct (binary_round_aux prec emax true M' E loc_Exact)
      as [[|] | [|] | | [|] m e]; try contradiction; reflexivity.
Qed.

(** Normalising an integer at least [mx * 2^(ex - ez)]. *)
Lemma normalize_ge (M ez : Z) (mx : positive) (ex : Z) :
  canonical_mantissa prec emax mx ex = true -> ez <= ex ->
  Zpos mx * 2 ^ (ex - ez) <= M ->
  SFleb (S754_finite false mx ex) (binary_normalize prec emax M ez false) = true.
Proof.
  intros Hc He HM.
  pose proof (pow2_pos (ex - ez) ltac:(lia)) as Px.
  destruct M as [| p | p]; try nia. cbn [binary_normalize].
  destruct (binary_round_spec false p ez) as (M' & E & -> & HE & HM').
  pose proof (pow2_pos (ez - E) ltac:(lia)) as Pz.
  apply round_ge_representable; [nia | exact Hc |].
  replace (Z.min E ex) with E by lia.
  rewrite Z.sub_diag, Z.pow_0_r, Z.mul_1_r.
  replace (ex - E) with ((ex - ez) + (ez - E)) by lia.
  rewrite pow2_split by lia. rewrite HM'. nia.
Qed.

Lemma valid_canonical (s : bool) (m : positive) (e : Z) :
  is_binary64 (S754_finite s m e) = true ->
  bounded prec emax m e = true /\ canonical_mantissa prec emax m e = true.
Proof.
  unfold is_binary64; cbn [valid_binary]. intros H. split; [exact H |].
  unfold bounded in H. apply andb_true_iff in H. tauto.
Qed.

(** The two aligned mantissas of a sum or a difference. *)
Lemma aligned (mx my : positive) (ex ey : Z) :
  let ez := Z.min ex ey in
  Zpos (fst (shl_align mx ex ez)) = Zpos mx * 2 ^ (ex - ez)
  /\ Zpos (fst (shl_align my ey ez)) = Zpos my * 2 ^ (ey - ez)
  /\ 0 < 2 ^ (ex - ez) /\ 0 < 2 ^ (ey - ez) /\ ez <= ex.
Proof.
  intros ez.
  destruct (shl_align_spec mx ex ez) as [_ Sx].
  destruct (shl_align_spec my ey ez) as [_ Sy].
  replace (Z.min ex ez) with ez in Sx by (unfold ez; lia).
  replace (Z.min ey ez) with ez in Sy by (unfold ez; lia).
  repeat split; try assumption; try (apply pow2_pos; unfold ez; lia).
  unfold ez; lia.
Qed.

(** Adding a number that is not negative does not decrease. *)
Lemma add_ge (x y : number) :
  is_binary64 x = true ->
  not_negative y = true ->
  is_nan (add x y) = false ->
  leb x (add x y) = true.
Proof.
  intros Hv Hy Hn. unfold add, leb in *.
  destruct x as [[|] | [|] | | sx mx ex], y as [[|] | [|] | | [|] my ey];
    try discriminate; try reflexivity; try apply leb_refl_finite;
    try (destruct sx; reflexivity).
  cbn [SFadd] in *.
  destruct (valid_canonical _ _ _ Hv) as [Hb Hc].
  destruct (aligned mx my ex ey) as (-> & -> & Px & Py & Hez).
  set (ez := Z.min ex ey) in *.
  destruct sx; cbn [cond_Zopp] in *.
  - set (M := - (Zpos mx * 2 ^ (ex - ez)) + Zpos my * 2 ^ (ey - ez)) in *.
    destruct (Z.eq_dec M 0) as [E0 | NZ]; [rewrite E0; reflexivity |].
    replace M with (- (- M)) by lia. rewrite normalize_opp by lia.
    change (S754_finite true mx ex) with (SFopp (S754_finite false mx ex)).
    apply leb_opp. apply normalize_le; try assumption. unfold M. nia.
  - apply normalize_ge; try assumption. nia.
Qed.

(** Subtracting a number that is not negative does not increase. *)
Lemma sub_le (x y : number) :
  is_binary64 x = true ->
  not_negative y = true ->
  is_nan (sub x y) = false ->
  leb (sub x y) x = true.
Proof.
  intros Hv Hy Hn. unfold sub, leb in *.
  destruct x as [[|] | [|] | | sx mx ex], y as [[|] | [|] | | [|] my ey];
    try discriminate; try reflexivity; try apply leb_refl_finite;
    try (destruct sx; reflexivity).
  cbn [SFsub] in *.
  destruct (valid_canonical _ _ _ Hv) as [Hb Hc].
  destruct (aligned mx my ex ey) as (-> & -> & Px & Py & Hez).
  set (ez := Z.min ex ey) in *.
  destruct sx; cbn [cond_Zopp] in *.
  - set (M := Zpos mx * 2 ^ (ex - ez) + Zpos my * 2 ^ (ey - ez)).
    replace (- (Zpos mx * 2 ^ (ex - ez)) - Zpos my * 2 ^ (ey - ez))
      with (- M) by (unfold M; lia).
    rewrite normalize_opp by (unfold M; nia).
    change (S754_finite true mx ex) with (SFopp (S754_finite false mx ex)).
    apply leb_opp. apply normalize_ge; try assumption. unfold M. nia.
  - apply normalize_le; try assumption. nia.
Qed.

(** A quotient of two numbers in order is at most 1. *)
Lemma div_le_one (x y : number) :
  is_binary64 x = true -> is_binary64 y = true ->
  not_negative x = true -> leb x y = true ->
  is_nan (div x y) = false ->
  leb (div x y) one = true.
Proof.
  intros Hx Hy Hs Hle Hn. unfold div, leb in *.
  destruct x as [[|] | [|] | | [|] mx ex], y as [[|] | [|] | | [|] my ey];
    try discriminate; try reflexivity.
  cbn [SFdiv xorb]. rewrite div_core_spec.
  set (g := Zdigits2 (Zpos mx) + ex - (Zdigits2 (Zpos my) + ey)).
  set (e' := Z.min (fexp prec emax g) (ex - ey)).
  set (m' := Zpos mx * 2 ^ (ex - ey - e')).
  destruct (valid_finite _ _ _ Hx) as (_ & Hdx & Hex & Hnx).
  destruct (valid_finite _ _ _ Hy) as (_ & Hdy & Hey & Hny).
  pose proof (digits2_bounds mx) as Bx.
  change (Zpos (digits2_pos mx)) with (Zdigits2 (Zpos mx)) in Bx.
  pose proof (digits2_bounds my) as By.
  change (Zpos (digits2_pos my)) with (Zdigits2 (Zpos my)) in By.
  (* the order of the two numbers *)
  assert (Hord : ex < ey \/ (ex = ey /\ Zpos mx <= Zpos my)).
  { unfold SFleb, SFcompare in Hle.
    destruct (Z.compare_spec ex ey) as [Heq | Hlt | Hgt];
      [right | now left | discriminate].
    split; [exact Heq |].
    destruct (Pos.compare_cont Eq mx my) eqn:Hc; try discriminate.
    - change (Pos.compare_cont Eq mx my) with (Pos.compare mx my) in Hc.
      apply Pos.compare_eq in Hc. subst. lia.
    - change (Pos.compare_cont Eq mx my) with (Pos.compare mx my) in Hc.
      rewrite Pos.compare_lt_iff in Hc. lia. }
  assert (Hg : g <= 0).
  { unfold g. destruct Hord as [Hlt | [Heq Hm]].
    - assert (Zdigits2 (Zpos my) = 53) by (apply Hny; lia). lia.
    - pose proof (digits_le (Zpos mx) (Zpos my) ltac:(lia) Hm). lia. }
  assert (He' : e' <= -53).
  { unfold e'. pose proof (fexp_mono g 0 Hg) as Hf.
    change (fexp prec emax 0) with (-53) in Hf. lia. }
  assert (Hs' : 0 <= ex - ey - e') by (unfold e'; lia).
  pose proof (pow2_pos (ex - ey - e') Hs') as Ps.
  pose proof (pow2_pos (- e') ltac:(lia)) as Pe.
  assert (Hm' : 0 < m') by (unfold m'; nia).
  assert (Hkey : m' <= 2 ^ (- e') * Zpos my).
  { unfold m'. destruct Hord as [Hlt | [Heq Hm]].
    - assert (Hd53 : Zdigits2 (Zpos my) = 53) by (apply Hny; lia).
      rewrite Hd53 in By.
      replace (- e') with ((ex - ey - e') + (ey - ex)) by lia.
      rewrite pow2_split by lia.
      assert (2 ^ 1 <= 2 ^ (ey - ex)) by (apply Z.pow_le_mono_r; lia).
      assert (Zpos mx < 2 ^ 53).
      { destruct Bx as [_ Bx]. eapply Z.lt_le_trans; [exact Bx |].
        apply Z.pow_le_mono_r; lia. }
      change (2 ^ 1) with 2 in *. change (2 ^ (53 - 1)) with 4503599627370496 in *.
      change (2 ^ 53) with 9007199254740992 in *.
      rewrite <- Z.mul_assoc.
      assert (Zpos mx <= 2 ^ (ey - ex) * Zpos my) by nia.
      nia.
    - replace (ex - ey - e') with (- e') by lia. nia. }
  pose proof (Z.div_mod m' (Zpos my) ltac:(lia)) as Hdm.
  pose proof (Z.mod_pos_bound m' (Zpos my) ltac:(lia)) as Hmod.
  assert (Hq : 0 <= m' / Zpos my) by (apply Z.div_pos; lia).
  change one with (S754_finite false 4503599627370496 (-52)).
  assert (Hone : 4503599627370496 * 2 ^ (-52 - e') = 2 ^ (- e')).
  { change 4503599627370496 with (2 ^ 52).
    rewrite <- pow2_split by lia. f_equal. lia. }
  apply round_le_representable; try reflexivity; try lia.
  - rewrite Hone. nia.
  - intros Hl. apply new_location_exact in Hl. rewrite Hone. nia.
Qed.

Lemma leb_trans (x y z : number) :
  leb x y = true -> leb y z = true -> leb x z = true.
Proof.
  unfold leb, SFleb.
  destruct x as [[|] | [|] | | [|] m1 e1], y as [[|] | [|] | | [|] m2 e2],
    z as [[|] | [|] | | [|] m3 e3];
    cbn; try discriminate; try reflexivity;
    destruct (Z.compare_spec e1 e2), (Z.compare_spec e2 e3);
    cbn; try discriminate; intros H12 H23;
    destruct (Z.compare_spec e1 e3); cbn; try reflexivity; try lia;
    subst;
    change (Pos.compare_cont Eq) with Pos.compare in *;
    destruct (Pos.compare_spec m1 m2), (Pos.compare_spec m2 m3);
    try discriminate;
    destruct (Pos.compare_spec m1 m3); cbn; try reflexivity; lia.
Qed.

End order_of_sums.

(** ** Chi-square *)

Section chi_square.
Import JS.

Lemma zero_total_false (data : chiSquare.input) :
  chiSquare.zero_total data = false
  <-> (chiSquare.row1 data !== 0)%js = true
      /\ (chiSquare.row2 data !== 0)%js = true
      /\ (chiSquare.col1 data !== 0)%js = true
      /\ (chiSquare.col2 data !== 0)%js = true.
Proof.
  unfold chiSquare.zero_total, strict_neq.
  rewrite !orb_false_iff, !negb_true_iff. tauto.
Qed.

Lemma zero_total_true (data : chiSquare.input) :
  chiSquare.zero_total data = true
  <-> (chiSquare.row1 data === 0)%js = true
      \/ (chiSquare.row2 data === 0)%js = true
      \/ (chiSquare.col1 data === 0)%js = true
      \/ (chiSquare.col2 data === 0)%js = true.
Proof.
  unfold chiSquare.zero_total. rewrite !orb_true_iff. tauto.
Qed.

Lemma formatP_normal (h : Host) (p : number) :
  exists s, chiSquare.formatP h p = Normal s.
Proof.
  unfold chiSquare.formatP. destruct (ltb p _); [eauto |].
  apply toFixed_normal. lia.
Qed.

(** Past the guard, when the helper returns, [compute] returns and shows
    the statistic with four decimals. *)
Lemma chiSquare_compute_returns
    (h : Host) (u : CiUtils) (data : chiSquare.input) (p : number) :
  chiSquare.zero_total data = false ->
  getChiSqPValue u (chiSquare.chi2 h data) 1 = Normal p ->
  exists r shown,
    chiSquare.compute h u data = Normal r
    /\ toFixed h (chiSquare.chi2 h data) 4 = Normal shown
    /\ nth_error (results r) 0
       = Some (Entry "Chi-Square (χ²)" (Text shown) (Some true)).
Proof.
  intros Hz Hp. unfold chiSquare.compute. rewrite Hz, Hp. cbn [bind].
  destruct (toFixed_normal h (chiSquare.chi2 h data) 4) as [s4 Hs4]; [lia |].
  destruct (toFixed_normal h (chiSquare.chi2 h data) 3) as [s3 Hs3]; [lia |].
  destruct (formatP_normal h p) as [sp Hsp].
  rewrite Hs4, Hsp, Hs3. cbn [bind].
  eexists. exists s4. repeat split; reflexivity.
Qed.

(** The cells of a table that are not negative give margins, a total and a
    divisor that are not negative either (or NaN). *)
Lemma margins_not_negative (data : chiSquare.input) :
  not_negative (chiSquare.a data) = true ->
  not_negative (chiSquare.b data) = true ->
  not_negative (chiSquare.c data) = true ->
  not_negative (chiSquare.d data) = true ->
  not_negative (chiSquare.row1 data) = true
  /\ not_negative (chiSquare.row2 data) = true
  /\ not_negative (chiSquare.col1 data) = true
  /\ not_negative (chiSquare.col2 data) = true
  /\ not_negative (chiSquare.n data) = true.
Proof.
  intros Ha Hb Hc Hd.
  unfold chiSquare.row1, chiSquare.row2, chiSquare.col1, chiSquare.col2,
    chiSquare.n.
  repeat split; repeat apply add_not_negative; assumption.
Qed.

Lemma divisor_sign_clear (data : chiSquare.input) :
  not_negative (chiSquare.a data) = true ->
  not_negative (chiSquare.b data) = true ->
  not_negative (chiSquare.c data) = true ->
  not_negative (chiSquare.d data) = true ->
  chiSquare.zero_total data = false ->
  sign_clear (chiSquare.divisor data) = true.
Proof.
  intros Ha Hb Hc Hd Hz.
  destruct (margins_not_negative data Ha Hb Hc Hd) as (H1 & H2 & H3 & H4 & _).
  apply zero_total_false in Hz. destruct Hz as (Z1 & Z2 & Z3 & Z4).
  unfold strict_neq in *. rewrite negb_true_iff in *.
  unfold chiSquare.divisor.
  repeat apply mul_sign_clear; now apply not_negative_nonzero.
Qed.

Lemma correctedNum_sign_clear (data : chiSquare.input) :
  sign_clear (chiSquare.correctedNum data) = true.
Proof.
  unfold chiSquare.correctedNum, chiSquare.numerator.
  destruct (chiSquare.yates data);
    [apply max_zero_sign_clear | apply abs_sign_clear].
Qed.

End chi_square.

Section chi_square_claims.
Import JS.

(** C1: with every margin above 0, [compute] does not take the early
    return; its statistic is the specification's formula
    n * numerator^2 / (R1*R2*C1*C2), each operation being the code's, with
    the numerator |ad - bc| (less n/2, clamped at 0, under Yates); the first
    entry of the results shows it with four decimals.  For 10, 20, 30, 40
    with Yates: n = 100, the numerator is 200, corrected to 150, and, where
    the engine's Math.pow(150, 2) is 22500, the statistic is the Number
    2250000/5040000, shown as 0.4464.  The quotient is a rounded one: for
    0, 2, 4, 1 with Yates it is the Number 141.75/120, which lies below
    1.18125 and is shown as 1.1812. *)
Theorem chiSquare_statistic_formula (h : Host) (u : CiUtils) :
  (forall (a b c d : number) (yates : bool) (p : number),
      (0 < chiSquare.row1 (chiSquare.Input a b c d yates))%js = true ->
      (0 < chiSquare.row2 (chiSquare.Input a b c d yates))%js = true ->
      (0 < chiSquare.col1 (chiSquare.Input a b c d yates))%js = true ->
      (0 < chiSquare.col2 (chiSquare.Input a b c d yates))%js = true ->
      chiSquare.zero_total (chiSquare.Input a b c d yates) = false
      /\ chiSquare.numerator (chiSquare.Input a b c d yates)
         = Math_abs (a * d - b * c)%js
      /\ chiSquare.correctedNum (chiSquare.Input a b c d yates)
         = yates_numerator_formula a b c d yates
      /\ chiSquare.chi2 h (chiSquare.Input a b c d yates)
         = chi2_formula h a b c d yates
      /\ (getChiSqPValue u (chi2_formula h a b c d yates) 1 = Normal p ->
          exists r shown,
            chiSquare.compute h u (chiSquare.Input a b c d yates) = Normal r
            /\ toFixed h (chi2_formula h a b c d yates) 4 = Normal shown
            /\ nth_error (results r) 0
               = Some (Entry "Chi-Square (χ²)" (Text shown) (Some true))))
  /\ chiSquare.n (chiSquare.Input 10 20 30 40 true) = 100%js
  /\ chiSquare.numerator (chiSquare.Input 10 20 30 40 true) = 200%js
  /\ chiSquare.correctedNum (chiSquare.Input 10 20 30 40 true) = 150%js
  /\ chiSquare.divisor (chiSquare.Input 10 20 30 40 true) = 5040000%js
  /\ (Math_pow h 150 2 = 22500%js ->
      chiSquare.chi2 h (chiSquare.Input 10 20 30 40 true)
      = (2250000 / 5040000)%js
      /\ toFixed h (2250000 / 5040000)%js 4 = Normal "0.4464"%string
      /\ forall p : number,
           getChiSqPValue u (2250000 / 5040000)%js 1 = Normal p ->
           exists r,
             chiSquare.compute h u (chiSquare.Input 10 20 30 40 true) = Normal r
             /\ nth_error (results r) 0
                = Some (Entry "Chi-Square (χ²)" (Text "0.4464") (Some true)))
  /\ (Math_pow h 4.5 2 = 20.25%js ->
      chiSquare.chi2 h (chiSquare.Input 0 2 4 1 true) = (141.75 / 120)%js
      /\ toFixed h (141.75 / 120)%js 4 = Normal "1.1812"%string).
Proof.
  assert (Hz : forall data,
             (0 < chiSquare.row1 data)%js = true ->
             (0 < chiSquare.row2 data)%js = true ->
             (0 < chiSquare.col1 data)%js = true ->
             (0 < chiSquare.col2 data)%js = true ->
             chiSquare.zero_total data = false).
  { intros data H1 H2 H3 H4. apply zero_total_false.
    repeat split; now apply zero_ltb_nonzero. }
  assert (Hchi : Math_pow h 150 2 = 22500%js ->
                 chiSquare.chi2 h (chiSquare.Input 10 20 30 40 true)
                 = (2250000 / 5040000)%js).
  { intros Hpow. unfold chiSquare.chi2.
    replace (chiSquare.correctedNum (chiSquare.Input 10 20 30 40 true))
      with (150%js : number) by (vm_compute; reflexivity).
    rewrite Hpow. vm_compute. reflexivity. }
  assert (Hshown : toFixed h (2250000 / 5040000)%js 4 = Normal "0.4464"%string)
    by (vm_compute; reflexivity).
  split; [| split; [| split; [| split; [| split; [| split]]]]].
  - intros a b c d yates p H1 H2 H3 H4.
    pose proof (Hz _ H1 H2 H3 H4) as Hzero.
    split; [exact Hzero |]. split; [reflexivity |].
    split; [reflexivity |]. split; [reflexivity |].
    intros Hp.
    exact (chiSquare_compute_returns h u (chiSquare.Input a b c d yates) p Hzero Hp).
  - vm_compute. reflexivity.
  - vm_compute. reflexivity.
  - vm_compute. reflexivity.
  - vm_compute. reflexivity.
  - intros Hpow. split; [now apply Hchi |]. split; [exact Hshown |].
    intros p Hp.
    destruct (chiSquare_compute_returns h u (chiSquare.Input 10 20 30 40 true) p)
      as (r & shown & Hr & Hs & Hn).
    + vm_compute. reflexivity.
    + now rewrite (Hchi Hpow).
    + exists r. split; [exact Hr |]. rewrite (Hchi Hpow), Hshown in Hs.
      injection Hs as <-. exact Hn.
  - intros Hpow. split; [| vm_compute; reflexivity].
    unfold chiSquare.chi2.
    replace (chiSquare.correctedNum (chiSquare.Input 0 2 4 1 true))
      with (4.5%js : number) by (vm_compute; reflexivity).
    rewrite Hpow. vm_compute. reflexivity.
Qed.

(** C2: as soon as a row sum or a column sum is zero (+0 or -0), [compute]
    returns the record with no results and the explanatory message,
    whatever the p-value helper would do; the statistic is computed only
    when none of the four sums is zero; the table 0, 0, 5, 5 takes the
    early return. *)
Theorem chiSquare_zero_margin_short_circuit (h : Host) (u : CiUtils) :
  (forall data : chiSquare.input,
      (chiSquare.row1 data === 0)%js = true
      \/ (chiSquare.row2 data === 0)%js = true
      \/ (chiSquare.col1 data === 0)%js = true
      \/ (chiSquare.col2 data === 0)%js = true ->
      chiSquare.compute h u data
      = Normal {| results := [];
                  interpretation := "Table contains a row or column with zero totals.";
                  rCode := None;
                  formula := None |})
  /\ (forall (data : chiSquare.input) (r : result),
         chiSquare.compute h u data = Normal r ->
         results r <> [] ->
         (chiSquare.row1 data !== 0)%js = true
         /\ (chiSquare.row2 data !== 0)%js = true
         /\ (chiSquare.col1 data !== 0)%js = true
         /\ (chiSquare.col2 data !== 0)%js = true)
  /\ (forall yates : bool,
         chiSquare.row1 (chiSquare.Input 0 0 5 5 yates) = 0%js
         /\ chiSquare.compute h u (chiSquare.Input 0 0 5 5 yates)
            = Normal chiSquare.zero_total_result).
Proof.
  split; [| split].
  - intros data H. apply zero_total_true in H.
    unfold chiSquare.compute. now rewrite H.
  - intros data r Hr Hne. apply zero_total_false.
    unfold chiSquare.compute in Hr.
    destruct (chiSquare.zero_total data); [| reflexivity].
    injection Hr as <-. now contradiction Hne.
  - intros yates. split; reflexivity.
Qed.

(** C7, as stated, fails: on the cells 1e200 (finite and not negative) the
    products overflow, ad - bc is Infinity - Infinity, and the corrected
    numerator is NaN: it is neither at most the uncorrected numerator nor
    at least 0. *)
Lemma chiSquare_yates_numerator_NaN_on_overflow :
  chiSquare.correctedNum (chiSquare.Input 1e200 1e200 1e200 1e200 true) = NaN
  /\ (chiSquare.correctedNum (chiSquare.Input 1e200 1e200 1e200 1e200 true)
      <= chiSquare.numerator (chiSquare.Input 1e200 1e200 1e200 1e200 true))%js
     = false
  /\ (0 <= chiSquare.correctedNum (chiSquare.Input 1e200 1e200 1e200 1e200 true))%js
     = false.
Proof. repeat split; vm_compute; reflexivity. Qed.

(** The cases of the clamp Math.max(0, |ad - bc| - n/2). *)
Lemma yates_numerator_cases (a b c d : number) :
  let data := chiSquare.Input a b c d true in
  let v := (chiSquare.numerator data - chiSquare.n data / 2)%js in
  chiSquare.correctedNum data = Math_max 0 v
  /\ (is_nan (chiSquare.correctedNum data) = true <-> is_nan v = true)
  /\ (is_nan v = false -> (0 <= chiSquare.correctedNum data)%js = true)
  /\ (is_nan v = false -> (0 < v)%js = false ->
      chiSquare.correctedNum data = 0%js
      /\ (chiSquare.correctedNum data <= chiSquare.numerator data)%js = true)
  /\ ((0 < v)%js = true -> chiSquare.correctedNum data = v).
Proof.
  intros data v.
  assert (E : chiSquare.correctedNum data = Math_max 0 v) by reflexivity.
  rewrite E. split; [reflexivity |].
  assert (Hnum : is_nan v = false -> (0 <= chiSquare.numerator data)%js = true).
  { intros Hn.
    assert (Hnn : is_nan (chiSquare.numerator data) = false).
    { destruct (chiSquare.numerator data) eqn:En; try reflexivity.
      subst v. discriminate Hn. }
    pose proof (abs_sign_clear
                  (chiSquare.a data * chiSquare.d data
                   - chiSquare.b data * chiSquare.c data)%js) as Hs.
    change (Math_abs _) with (chiSquare.numerator data) in Hs.
    destruct (chiSquare.numerator data) as [[|] | [|] | | [|] m e];
      try discriminate; reflexivity. }
  destruct (max_zero_cases v) as [[Hn Hm] | [[Hp Hm] | (Hn & Hp & Hm)]];
    rewrite Hm.
  - split; [split; intros _; [exact Hn | reflexivity] |].
    split; [intros H; congruence |].
    split; [intros H; congruence |].
    intros Hpos. destruct v; discriminate.
  - split; [tauto |].
    split; [intros _; now apply ltb_leb |].
    split; [intros _ H; congruence | reflexivity].
  - split; [split; intros H; [discriminate | congruence] |].
    split; [reflexivity |].
    split; [| intros H; congruence].
    intros _ _. split; [reflexivity |]. now apply Hnum.
Qed.

(** C7, amended: under Yates the corrected numerator is
    Math.max(0, |ad - bc| - n/2).  It is NaN exactly when |ad - bc| - n/2
    is; otherwise it is not negative; when |ad - bc| - n/2 is not above 0
    it is +0; when it is above 0 it is that difference.  For binary64
    cells that are not negative the invariant holds whenever the corrected
    numerator is a number: it is at least 0 and at most the uncorrected
    numerator |ad - bc|, every operation being rounded. *)
Theorem chiSquare_yates_numerator_bounds (a b c d : number) :
  let data := chiSquare.Input a b c d true in
  let v := (chiSquare.numerator data - chiSquare.n data / 2)%js in
  chiSquare.correctedNum data = Math_max 0 v
  /\ (is_nan (chiSquare.correctedNum data) = true <-> is_nan v = true)
  /\ (is_nan v = false -> (0 <= chiSquare.correctedNum data)%js = true)
  /\ (is_nan v = false -> (0 < v)%js = false ->
      chiSquare.correctedNum data = 0%js
      /\ (chiSquare.correctedNum data <= chiSquare.numerator data)%js = true)
  /\ ((0 < v)%js = true -> chiSquare.correctedNum data = v)
  /\ (is_binary64 a = true -> is_binary64 b = true ->
      is_binary64 c = true -> is_binary64 d = true ->
      (0 <= a)%js = true -> (0 <= b)%js = true ->
      (0 <= c)%js = true -> (0 <= d)%js = true ->
      is_nan (chiSquare.correctedNum data) = false ->
      (0 <= chiSquare.correctedNum data)%js = true
      /\ (chiSquare.correctedNum data <= chiSquare.numerator data)%js = true).
Proof.
  intros data v.
  destruct (yates_numerator_cases a b c d) as (H1 & H2 & H3 & H4 & H5).
  fold data in H1, H2, H3, H4, H5. fold v in H1, H2, H3, H4, H5.
  split; [exact H1 |]. split; [exact H2 |]. split; [exact H3 |].
  split; [exact H4 |]. split; [exact H5 |].
  intros Va Vb Vc Vd Pa Pb Pc Pd Hn.
  assert (Hv : is_nan v = false).
  { destruct (is_nan v) eqn:En; [| reflexivity].
    rewrite (proj2 H2 eq_refl) in Hn. discriminate Hn. }
  split; [now apply H3 |].
  destruct (0 < v)%js eqn:Hpos; [| now apply H4].
  rewrite (H5 eq_refl). unfold v. apply sub_le.
  - unfold chiSquare.numerator. apply abs_valid, sub_valid; now apply mul_valid.
  - assert (Hnn : forall x, (0 <= x)%js = true -> not_negative x = true).
    { intros x Hx. apply not_negative_leb. now right. }
    apply div_not_negative; [| reflexivity].
    now destruct (margins_not_negative data (Hnn _ Pa) (Hnn _ Pb) (Hnn _ Pc)
                    (Hnn _ Pd)) as (_ & _ & _ & _ & ?).
  - exact Hv.
Qed.

(** C8, as stated, fails: on the table 94906267, 94906266, 94906268,
    94906267 no margin is zero and ad - bc = 1, but the products ad and bc
    round to the same Number and the statistic is 0, whatever the engine. *)
Lemma chiSquare_statistic_zero_without_independence :
  chiSquare.zero_total
    (chiSquare.Input 94906267 94906266 94906268 94906267 false) = false
  /\ (94906267 * 94906267 - 94906266 * 94906268 = 1)%Z
  /\ (94906267 * 94906267 === 94906266 * 94906268)%js = true
  /\ forall h : Host,
       chiSquare.chi2 h
         (chiSquare.Input 94906267 94906266 94906268 94906267 false) = 0%js.
Proof.
  split; [vm_compute; reflexivity |]. split; [reflexivity |].
  split; [vm_compute; reflexivity |].
  intros h. unfold chiSquare.chi2.
  replace (chiSquare.correctedNum
             (chiSquare.Input 94906267 94906266 94906268 94906267 false))
    with (0%js : number) by (vm_compute; reflexivity).
  change (Math_pow h 0%js 2%js) with pos_zero.
  vm_compute. reflexivity.
Qed.

(** On a table whose margins underflow the divisor is 0 past the guard,
    and the statistic is NaN as soon as the engine's square of 1e-200
    underflows to 0 as well: it is not "at least 0". *)
Lemma chiSquare_statistic_NaN_on_underflow :
  chiSquare.zero_total (chiSquare.Input 2e-100 1e-100 1e-100 1e-100 false) = false
  /\ chiSquare.divisor (chiSquare.Input 2e-100 1e-100 1e-100 1e-100 false) = 0%js
  /\ Math_pow reference.host 1e-200 2 = 0%js
  /\ forall h : Host,
       Math_pow h 1e-200 2 = 0%js ->
       chiSquare.chi2 h (chiSquare.Input 2e-100 1e-100 1e-100 1e-100 false) = NaN
       /\ (0 <= chiSquare.chi2 h
                  (chiSquare.Input 2e-100 1e-100 1e-100 1e-100 false))%js = false.
Proof.
  split; [vm_compute; reflexivity |]. split; [vm_compute; reflexivity |].
  split; [vm_compute; reflexivity |].
  intros h Hpow.
  assert (E : chiSquare.chi2 h (chiSquare.Input 2e-100 1e-100 1e-100 1e-100 false)
              = NaN).
  { unfold chiSquare.chi2.
    replace (chiSquare.correctedNum
               (chiSquare.Input 2e-100 1e-100 1e-100 1e-100 false))
      with (1e-200%js : number) by (vm_compute; reflexivity).
    rewrite Hpow. vm_compute. reflexivity. }
  rewrite E. split; reflexivity.
Qed.

(** C8, amended: for cells that are not negative and past the guard, the
    statistic is never negative: it is NaN or at least 0, as long as the
    engine's Math.pow does not make a square negative.  Without Yates it is
    0 as soon as the computed products ad and bc are equal and finite, the
    total is finite and the divisor is a number other than 0. *)
Theorem chiSquare_statistic_never_negative (h : Host) (data : chiSquare.input) :
  (forall m e, not_negative (pow_approx h (S754_finite false m e) 2) = true) ->
  (0 <= chiSquare.a data)%js = true -> (0 <= chiSquare.b data)%js = true ->
  (0 <= chiSquare.c data)%js = true -> (0 <= chiSquare.d data)%js = true ->
  chiSquare.zero_total data = false ->
  (is_nan (chiSquare.chi2 h data) = true
   \/ (0 <= chiSquare.chi2 h data)%js = true)
  /\ (chiSquare.yates data = false ->
      (chiSquare.a data * chiSquare.d data
       === chiSquare.b data * chiSquare.c data)%js = true ->
      isFinite (chiSquare.a data * chiSquare.d data)%js = true ->
      isFinite (chiSquare.n data) = true ->
      is_nan (chiSquare.divisor data) = false ->
      (chiSquare.divisor data !== 0)%js = true ->
      (chiSquare.chi2 h data === 0)%js = true).
Proof.
  intros Hpow Ha Hb Hc Hd Hz.
  assert (Hnn : forall x, (0 <= x)%js = true -> not_negative x = true).
  { intros x Hx. apply not_negative_leb. now right. }
  apply Hnn in Ha, Hb, Hc, Hd.
  split.
  - apply not_negative_leb. unfold chiSquare.chi2.
    apply div_not_negative; [| now apply divisor_sign_clear].
    apply mul_not_negative;
      [now destruct (margins_not_negative data Ha Hb Hc Hd) as (_ & _ & _ & _ & ?) |].
    pose proof (correctedNum_sign_clear data) as Hs.
    destruct (chiSquare.correctedNum data) as [[|] | [|] | | [|] m e];
      try discriminate; try reflexivity.
    apply Hpow.
  - intros Hy Heq Hfin Hn Hdn Hd0.
    destruct (sub_strict_eq _ _ Heq Hfin) as [s Hs].
    unfold chiSquare.chi2, chiSquare.correctedNum, chiSquare.numerator.
    rewrite Hy, Hs.
    change (Math_pow h (Math_abs (S754_zero s)) 2) with (S754_zero false).
    destruct (chiSquare.n data) as [sn | sn | | sn mn en]; try discriminate;
      destruct (chiSquare.divisor data) as [sd | sd | | sd md ed];
      try discriminate; reflexivity.
Qed.

End chi_square_claims.

(** ** Odds ratio: the point estimate *)

Section toolkit_basics.
Import JS.

Lemma ciEpi_f_not_finite (h : Host) (x : number) :
  isFinite x = false -> ciEpi.f h x = Normal "∞"%string.
Proof. intros H. unfold ciEpi.f. now rewrite H. Qed.

Lemma ciEpi_f_normal (h : Host) (x : number) :
  exists s, ciEpi.f h x = Normal s.
Proof.
  unfold ciEpi.f. destruct (isFinite x); [| eauto].
  apply toFixed_normal. lia.
Qed.

Lemma ciEpi_fP_normal (h : Host) (p : number) :
  exists s, ciEpi.fP h p = Normal s.
Proof.
  unfold ciEpi.fP. destruct (ltb p _); [eauto |].
  apply toFixed_normal. lia.
Qed.

Lemma ciEpi_orPoint_zero_divisor (data : ciEpi.input) :
  (ciEpi.b data === 0)%js = true \/ (ciEpi.c data === 0)%js = true ->
  ciEpi.orPoint data = PInf.
Proof.
  intros H. unfold ciEpi.orPoint, strict_neq.
  destruct H as [-> | ->]; rewrite ?andb_false_r; reflexivity.
Qed.

Lemma ciEpi_orPoint_quotient (data : ciEpi.input) :
  (ciEpi.b data !== 0)%js = true -> (ciEpi.c data !== 0)%js = true ->
  ciEpi.orPoint data
  = ((ciEpi.a data * ciEpi.d data) / (ciEpi.b data * ciEpi.c data))%js.
Proof. intros Hb Hc. unfold ciEpi.orPoint. now rewrite Hb, Hc. Qed.

(** What a successful [ciEpi.compute] was built from. *)
Lemma ciEpi_compute_returned
    (h : Host) (u : CiUtils) (data : ciEpi.input) (r : result) :
  ciEpi.compute h u data = Normal r ->
  exists (z : number) (woolfP : number)
         (or_s exact_ci woolf_ci p_s rr_s rr_ci rd_s rd_ci : string),
    getZCritical u (ciEpi.conf data) = Normal z
    /\ ciEpi.getLogP h u (ciEpi.orCorrected data) (ciEpi.seLogOrWoolf data)
       = Normal woolfP
    /\ ciEpi.f h (ciEpi.orPoint data) = Normal or_s
    /\ formatCI u (ciEpi.exactLower h data z) (ciEpi.exactUpper h data z) 4
       = Normal exact_ci
    /\ formatCI u (ciEpi.woolfLower h data z) (ciEpi.woolfUpper h data z) 4
       = Normal woolf_ci
    /\ ciEpi.fP h woolfP = Normal p_s
    /\ ciEpi.f h (ciEpi.rr data) = Normal rr_s
    /\ formatCI u (ciEpi.rrLower h data z) (ciEpi.rrUpper h data z) 4 = Normal rr_ci
    /\ ciEpi.f h (ciEpi.rd data) = Normal rd_s
    /\ formatCI u (ciEpi.rdLower data z) (ciEpi.rdUpper data z) 4 = Normal rd_ci
    /\ results r
       = [ Entry "Odds Ratio (Point)" (Text or_s) (Some true);
           Entry "Approximate Exact CI (Fisher-like)" (Text exact_ci) (Some true);
           Entry "Woolf (Wald) CI" (Text woolf_ci) None;
           Entry "p-value (Association)" (Text p_s) (Some true);
           Entry "Relative Risk (RR)" (Text rr_s) None;
           Entry "RR 95% CI (Katz)" (Text rr_ci) None;
           Entry "Risk Difference (RD)" (Text rd_s) None;
           Entry "RD 95% CI" (Text rd_ci) None ]
    /\ interpretation r
       = ("The point Odds Ratio is " +:+ or_s +:+ " with association p="
          +:+ p_s +:+ ".").
Proof.
  intros Hr. unfold ciEpi.compute in Hr.
  destruct (getZCritical u (ciEpi.conf data)) as [z |] eqn:Hz;
    cbn [bind] in Hr; [| discriminate].
  unfold ciEpi.after_zCrit in Hr.
  destruct (ciEpi.getLogP h u (ciEpi.orCorrected data) (ciEpi.seLogOrWoolf data))
    as [woolfP |] eqn:HwP; cbn [bind] in Hr; [| discriminate].
  destruct (ciEpi.getLogP h u (ciEpi.rr data) (ciEpi.rrSELog data))
    as [rrP |] eqn:HrP; cbn [bind] in Hr; [| discriminate].
  destruct (getTPValue u _ 1000%js) as [rdT |] eqn:HrdT;
    cbn [bind] in Hr; [| discriminate].
  destruct (ciEpi.f h (ciEpi.orPoint data)) as [or_s |] eqn:Hor;
    cbn [bind] in Hr; [| discriminate].
  destruct (formatCI u (ciEpi.exactLower h data z) (ciEpi.exactUpper h data z) 4%js)
    as [exact_ci |] eqn:Hex; cbn [bind] in Hr; [| discriminate].
  destruct (formatCI u (ciEpi.woolfLower h data z) (ciEpi.woolfUpper h data z) 4%js)
    as [woolf_ci |] eqn:Hwo; cbn [bind] in Hr; [| discriminate].
  destruct (ciEpi.fP h woolfP) as [p_s |] eqn:Hps;
    cbn [bind] in Hr; [| discriminate].
  destruct (ciEpi.f h (ciEpi.rr data)) as [rr_s |] eqn:Hrrs;
    cbn [bind] in Hr; [| discriminate].
  destruct (formatCI u (ciEpi.rrLower h data z) (ciEpi.rrUpper h data z) 4%js)
    as [rr_ci |] eqn:Hrrci; cbn [bind] in Hr; [| discriminate].
  destruct (ciEpi.f h (ciEpi.rd data)) as [rd_s |] eqn:Hrds;
    cbn [bind] in Hr; [| discriminate].
  destruct (formatCI u (ciEpi.rdLower data z) (ciEpi.rdUpper data z) 4%js)
    as [rd_ci |] eqn:Hrdci; cbn [bind] in Hr; [| discriminate].
  rewrite ?Hor, ?Hps in Hr. cbn [bind] in Hr. injection Hr as <-.
  exists z, woolfP, or_s, exact_ci, woolf_ci, p_s, rr_s, rr_ci, rd_s, rd_ci.
  repeat split; assumption || reflexivity.
Qed.

(** With helpers that return, the toolkit returns. *)
Lemma ciEpi_compute_returns
    (h : Host) (u : CiUtils) (data : ciEpi.input) :
  (forall x, exists z, getZCritical u x = Normal z) ->
  (forall x k, exists t, getTPValue u x k = Normal t) ->
  (forall lo hi k, exists s, formatCI u lo hi k = Normal s) ->
  exists r, ciEpi.compute h u data = Normal r.
Proof.
  intros Hzc Htp Hci. unfold ciEpi.compute.
  destruct (Hzc (ciEpi.conf data)) as [z ->]. cbn [bind].
  unfold ciEpi.after_zCrit, ciEpi.getLogP.
  repeat match goal with
         | |- context [getTPValue u ?x ?k] =>
             let t := fresh "t" in
             destruct (Htp x k) as [t ->]; cbn [bind]
         | |- context [formatCI u ?lo ?hi ?k] =>
             let s := fresh "s" in
             destruct (Hci lo hi k) as [s ->]; cbn [bind]
         | |- context [ciEpi.f h ?x] =>
             let s := fresh "s" in
             destruct (ciEpi_f_normal h x) as [s ->]; cbn [bind]
         | |- context [ciEpi.fP h ?x] =>
             let s := fresh "s" in
             destruct (ciEpi_fP_normal h x) as [s ->]; cbn [bind]
         | |- context [if ?b then _ else _] => destruct b; cbn [bind]
         end;
    eauto.
Qed.

Lemma epiMeasures_compute_returns (h : Host) (data : epiMeasures.input) :
  exists (r : result) (rr_3 or_3 : string),
    epiMeasures.compute h data = Normal r
    /\ toFixed h (epiMeasures.rr data) 3 = Normal rr_3
    /\ toFixed h (epiMeasures.or data) 3 = Normal or_3
    /\ results r
       = [ Entry "Relative Risk (RR)" (Text rr_3) (Some true);
           Entry "Odds Ratio (OR)" (Text or_3) (Some true) ].
Proof.
  unfold epiMeasures.compute.
  destruct (toFixed_normal h (epiMeasures.rr data) 3) as [rr3 Hrr3]; [lia |].
  destruct (toFixed_normal h (epiMeasures.or data) 3) as [or3 Hor3]; [lia |].
  destruct (toFixed_normal h (epiMeasures.rr data) 2) as [rr2 Hrr2]; [lia |].
  destruct (toFixed_normal h (epiMeasures.or data) 2) as [or2 Hor2]; [lia |].
  rewrite Hrr3, Hor3, Hrr2, Hor2. cbn [bind].
  eexists. exists rr3, or3. repeat split; reflexivity.
Qed.

(** A non-zero number, or an infinity, over a zero is the infinity whose
    sign is the product of the signs. *)
Lemma div_pos_by_zero (x : number) (s : bool) :
  (0 < x)%js = true -> (x / S754_zero s)%js = S754_infinity s.
Proof.
  intros H. apply zero_ltb in H. destruct H as [-> | (m & e & ->)]; reflexivity.
Qed.

End toolkit_basics.

Section odds_ratio_point.
Import JS.

(** C9: [epiMeasures] computes [or] as (a*d)/(b*c), which its 'Odds Ratio
    (OR)' entry shows with three decimals; [ciEpi] computes the same
    expression as [orPoint] whenever b and c are both non-zero, and shows
    it through [f] in its first entry; for 70, 30, 40, 60 the value is the
    Number 3.5, shown as 3.500 and 3.5000. *)
Theorem odds_ratio_point_estimate :
  (forall (h : Host) (a b c d : number),
      epiMeasures.or (epiMeasures.Input a b c d) = ((a * d) / (b * c))%js
      /\ exists (r : result) (or_3 : string),
           epiMeasures.compute h (epiMeasures.Input a b c d) = Normal r
           /\ toFixed h ((a * d) / (b * c))%js 3 = Normal or_3
           /\ nth_error (results r) 1
              = Some (Entry "Odds Ratio (OR)" (Text or_3) (Some true)))
  /\ (forall a b c d conf : number,
         (b !== 0)%js = true -> (c !== 0)%js = true ->
         ciEpi.orPoint (ciEpi.Input a b c d conf) = ((a * d) / (b * c))%js
         /\ ciEpi.orPoint (ciEpi.Input a b c d conf)
            = epiMeasures.or (epiMeasures.Input a b c d))
  /\ (forall (h : Host) (u : CiUtils) (a b c d conf : number) (r : result),
         (b !== 0)%js = true -> (c !== 0)%js = true ->
         ciEpi.compute h u (ciEpi.Input a b c d conf) = Normal r ->
         exists shown : string,
           ciEpi.f h ((a * d) / (b * c))%js = Normal shown
           /\ nth_error (results r) 0
              = Some (Entry "Odds Ratio (Point)" (Text shown) (Some true)))
  /\ ((70 * 60) / (30 * 40))%js = 3.5%js
  /\ epiMeasures.or (epiMeasures.Input 70 30 40 60) = 3.5%js
  /\ (forall conf : number,
         ciEpi.orPoint (ciEpi.Input 70 30 40 60 conf) = 3.5%js)
  /\ (forall h : Host,
         exists r : result,
           epiMeasures.compute h (epiMeasures.Input 70 30 40 60) = Normal r
           /\ nth_error (results r) 1
              = Some (Entry "Odds Ratio (OR)" (Text "3.500") (Some true)))
  /\ (forall (h : Host) (u : CiUtils) (conf : number) (r : result),
         ciEpi.compute h u (ciEpi.Input 70 30 40 60 conf) = Normal r ->
         nth_error (results r) 0
         = Some (Entry "Odds Ratio (Point)" (Text "3.5000") (Some true))).
Proof.
  assert (Hor : epiMeasures.or (epiMeasures.Input 70 30 40 60) = 3.5%js)
    by (vm_compute; reflexivity).
  assert (Hpt : forall conf, ciEpi.orPoint (ciEpi.Input 70 30 40 60 conf) = 3.5%js).
  { intros conf. rewrite ciEpi_orPoint_quotient by reflexivity.
    vm_compute. reflexivity. }
  split; [| split; [| split; [| split; [| split; [| split; [| split]]]]]].
  - intros h a b c d. split; [reflexivity |].
    destruct (epiMeasures_compute_returns h (epiMeasures.Input a b c d))
      as (r & rr_3 & or_3 & Hr & _ & Ho & Hres).
    exists r, or_3. split; [exact Hr |]. split; [exact Ho |].
    now rewrite Hres.
  - intros a b c d conf Hb Hc.
    split; [| unfold epiMeasures.or]; now apply ciEpi_orPoint_quotient.
  - intros h u a b c d conf r Hb Hc Hr.
    destruct (ciEpi_compute_returned h u _ r Hr)
      as (z & wP & or_s & e_ci & w_ci & p_s & rr_s & rr_ci & rd_s & rd_ci
          & _ & _ & Hf & _ & _ & _ & _ & _ & _ & _ & Hres & _).
    rewrite ciEpi_orPoint_quotient in Hf by assumption.
    exists or_s. split; [exact Hf |]. now rewrite Hres.
  - vm_compute. reflexivity.
  - exact Hor.
  - exact Hpt.
  - intros h.
    destruct (epiMeasures_compute_returns h (epiMeasures.Input 70 30 40 60))
      as (r & rr_3 & or_3 & Hr & _ & Ho & Hres).
    exists r. split; [exact Hr |]. rewrite Hres. cbn [nth_error].
    rewrite Hor in Ho.
    assert (E : toFixed h 3.5%js 3 = Normal "3.500"%string)
      by (vm_compute; reflexivity).
    rewrite E in Ho. now injection Ho as <-.
  - intros h u conf r Hr.
    destruct (ciEpi_compute_returned h u _ r Hr)
      as (z & wP & or_s & e_ci & w_ci & p_s & rr_s & rr_ci & rd_s & rd_ci
          & _ & _ & Hf & _ & _ & _ & _ & _ & _ & _ & Hres & _).
    rewrite Hpt in Hf.
    assert (E : ciEpi.f h 3.5%js = Normal "3.5000"%string)
      by (vm_compute; reflexivity).
    rewrite E in Hf. injection Hf as <-. now rewrite Hres.
Qed.

End odds_ratio_point.

(** ** The combined toolkit: the zero-cell fallback and the p-value helper *)

Section toolkit_branches.
Import JS.

(** C4: when a raw cell is 0 (+0 or -0) the bounds of the "exact-like"
    interval are the Woolf bounds, and so are the two entries [compute]
    shows; the formula on the uncorrected counts is used when the four
    cells are non-zero. *)
Theorem ciEpi_zero_cell_fallback :
  (forall (h : Host) (data : ciEpi.input) (zCrit : number),
      (ciEpi.a data === 0)%js = true \/ (ciEpi.b data === 0)%js = true \/
      (ciEpi.c data === 0)%js = true \/ (ciEpi.d data === 0)%js = true ->
      ciEpi.exactLower h data zCrit = ciEpi.woolfLower h data zCrit
      /\ ciEpi.exactUpper h data zCrit = ciEpi.woolfUpper h data zCrit)
  /\ (forall (h : Host) (u : CiUtils) (data : ciEpi.input) (r : result),
         (ciEpi.a data === 0)%js = true \/ (ciEpi.b data === 0)%js = true \/
         (ciEpi.c data === 0)%js = true \/ (ciEpi.d data === 0)%js = true ->
         ciEpi.compute h u data = Normal r ->
         exists shown,
           nth_error (results r) 1
           = Some (Entry "Approximate Exact CI (Fisher-like)" (Text shown) (Some true))
           /\ nth_error (results r) 2
              = Some (Entry "Woolf (Wald) CI" (Text shown) None))
  /\ (forall (h : Host) (data : ciEpi.input) (zCrit : number),
         ((ciEpi.a data !== 0) && (ciEpi.d data !== 0)
          && (ciEpi.b data !== 0) && (ciEpi.c data !== 0))%js = true ->
         let seExact :=
           Math_sqrt (1 / ciEpi.a data + 1 / ciEpi.b data
                      + 1 / ciEpi.c data + 1 / ciEpi.d data)%js in
         ciEpi.exactLower h data zCrit
         = (ciEpi.orPoint data / Math_exp h (zCrit * seExact))%js
         /\ ciEpi.exactUpper h data zCrit
            = (ciEpi.orPoint data * Math_exp h (zCrit * seExact))%js).
Proof.
  assert (Hfall : forall (h : Host) (data : ciEpi.input) (zCrit : number),
      (ciEpi.a data === 0)%js = true \/ (ciEpi.b data === 0)%js = true \/
      (ciEpi.c data === 0)%js = true \/ (ciEpi.d data === 0)%js = true ->
      ciEpi.exact h data zCrit
      = (ciEpi.woolfLower h data zCrit, ciEpi.woolfUpper h data zCrit)).
  { intros h data zCrit H. unfold ciEpi.exact, strict_neq.
    destruct H as [-> | [-> | [-> | ->]]];
      cbn [negb andb]; rewrite ?andb_false_r; reflexivity. }
  split; [| split].
  - intros h data zCrit H. unfold ciEpi.exactLower, ciEpi.exactUpper.
    now rewrite (Hfall h data zCrit H).
  - intros h u data r H Hr.
    destruct (ciEpi_compute_returned h u _ r Hr)
      as (z & wP & or_s & e_ci & w_ci & p_s & rr_s & rr_ci & rd_s & rd_ci
          & _ & _ & _ & Hex & Hwo & _ & _ & _ & _ & _ & Hres & _).
    unfold ciEpi.exactLower, ciEpi.exactUpper in Hex.
    rewrite (Hfall h data z H) in Hex. cbn [fst snd] in Hex.
    rewrite Hex in Hwo. injection Hwo as <-.
    exists e_ci. rewrite Hres. split; reflexivity.
  - intros h data zCrit H seExact.
    unfold ciEpi.exactLower, ciEpi.exactUpper, ciEpi.exact.
    rewrite H. split; reflexivity.
Qed.

(** C5: [getLogP] returns 1 when the estimate is at most 0 or is not finite,
    whatever the distribution helper would do (it is not called); otherwise
    the estimate is a finite number above 0 and the result is the two-sided
    value the helper returns at |Math.log(estimate)| / SE_log with 1000
    degrees of freedom. *)
Theorem ciEpi_getLogP_guard :
  (forall (h : Host) (u : CiUtils) (est seLog : number),
      (est <= 0)%js = true \/ isFinite est = false ->
      ciEpi.getLogP h u est seLog = Normal 1%js)
  /\ (forall (h : Host) (u : CiUtils) (est seLog : number),
         (0 < est)%js = true -> isFinite est = true ->
         ciEpi.getLogP h u est seLog
         = (let* t := getTPValue u (Math_abs (Math_log h est) / seLog) 1000 in
            Normal (twoSided t))%js)
  /\ (forall (h : Host) (u : CiUtils) (est seLog : number) (e : exception),
         ciEpi.getLogP h u est seLog = Throw e ->
         (0 < est)%js = true /\ isFinite est = true
         /\ getTPValue u (Math_abs (Math_log h est) / seLog)%js 1000%js = Throw e)
  /\ (forall est : number,
         (est <= 0)%js = true \/ isFinite est = false
         \/ ((0 < est)%js = true /\ isFinite est = true
             /\ exists m e, est = S754_finite false m e)).
Proof.
  assert (Hcases : forall est : number,
             (est <= 0)%js = true \/ isFinite est = false
             \/ ((0 < est)%js = true /\ isFinite est = true
                 /\ exists m e, est = S754_finite false m e)).
  { intros [s | s | | [|] m e].
    - left. now destruct s.
    - right. now left.
    - right. now left.
    - now left.
    - right. right. split; [reflexivity |]. split; [reflexivity |]. now exists m, e. }
  assert (Hpos : forall (h : Host) (u : CiUtils) (est seLog : number),
         (0 < est)%js = true -> isFinite est = true ->
         ciEpi.getLogP h u est seLog
         = (let* t := getTPValue u (Math_abs (Math_log h est) / seLog) 1000 in
            Normal (twoSided t))%js).
  { intros h u est seLog Hp Hf. apply zero_ltb in Hp.
    destruct Hp as [-> | (m & e & ->)]; [discriminate | reflexivity]. }
  split; [| split; [exact Hpos | split; [| exact Hcases]]].
  - intros h u est seLog H. unfold ciEpi.getLogP.
    destruct H as [H | H]; rewrite H; rewrite ?orb_true_r; reflexivity.
  - intros h u est seLog e H.
    destruct (Hcases est) as [Hc | [Hc | (Hp & Hf & _)]].
    + unfold ciEpi.getLogP in H. rewrite Hc in H. discriminate.
    + unfold ciEpi.getLogP in H. rewrite Hc, orb_true_r in H. discriminate.
    + split; [exact Hp |]. split; [exact Hf |].
      rewrite (Hpos h u est seLog Hp Hf) in H.
      destruct (getTPValue u _ _) as [t | e']; cbn [bind] in H;
        [discriminate | congruence].
Qed.

End toolkit_branches.

(** ** The combined toolkit: the three intervals *)

Section toolkit_intervals.
Import JS.




(** With the reference engine and a critical value as small as 1e-20, the
    lower Katz bound exp(ln(rr) - zCrit * SE) of the table 1, 1, 1, 19 is
    above the relative risk 10: the exponential of the logarithm of 10 is
    not 10. *)
Lemma ciEpi_katz_interval_misses_at_tiny_zCrit :
  ciEpi.rr (ciEpi.Input 1 1 1 19 95) = 10%js
  /\ (ciEpi.rr (ciEpi.Input 1 1 1 19 95)
      < ciEpi.rrLower reference.host (ciEpi.Input 1 1 1 19 95) 1e-20)%js = true.
Proof. split; vm_compute; reflexivity. Qed.


End toolkit_intervals.

(** ** Zero denominators: what is shown *)

Section zero_denominators.
Import JS.

(** C6, as stated, fails: for a = 1, b = 0, c = 0, d = 1 (a zero divisor in
    both ratios) [epiMeasures] returns normally, whatever the engine, and
    both entries read Infinity, not the infinity sign. *)
Lemma epiMeasures_zero_divisor_shows_Infinity_word :
  (forall h : Host,
      exists r : result,
        epiMeasures.compute h (epiMeasures.Input 1 0 0 1) = Normal r
        /\ results r
           = [ Entry "Relative Risk (RR)" (Text "Infinity") (Some true);
               Entry "Odds Ratio (OR)" (Text "Infinity") (Some true) ])
  /\ Text "Infinity" <> Text "∞".
Proof.
  split; [| discriminate].
  intros h.
  destruct (epiMeasures_compute_returns h (epiMeasures.Input 1 0 0 1))
    as (r & rr_3 & or_3 & Hr & Hrr & Hor & Hres).
  exists r. split; [exact Hr |].
  assert (E1 : epiMeasures.rr (epiMeasures.Input 1 0 0 1) = PInf)
    by (vm_compute; reflexivity).
  assert (E2 : epiMeasures.or (epiMeasures.Input 1 0 0 1) = PInf)
    by (vm_compute; reflexivity).
  rewrite E1 in Hrr. rewrite E2 in Hor.
  rewrite toFixed_not_finite in Hrr, Hor by (reflexivity || lia).
  injection Hrr as <-. injection Hor as <-. exact Hres.
Qed.

(** C6, amended: [epiMeasures.compute] returns normally on every input and
    shows RR and OR through [toFixed], so that a value that is not finite
    reads Infinity, -Infinity or NaN; a product ad above 0 over a product
    bc that is zero gives the infinity of the sign of that zero (Infinity
    for +0, -Infinity for -0), and so does a risk above 0 over a zero risk.
    In [ciEpi] the formatter [f] never throws and shows every value that is
    not finite as the infinity sign; the point odds ratio is Infinity when
    b or c is zero, its entry then reads the infinity sign, and [compute]
    throws only if a helper does. *)
Theorem ratio_zero_denominators_shown :
  (forall (h : Host) (data : epiMeasures.input),
      exists (r : result) (rr_3 or_3 : string),
        epiMeasures.compute h data = Normal r
        /\ toFixed h (epiMeasures.rr data) 3 = Normal rr_3
        /\ toFixed h (epiMeasures.or data) 3 = Normal or_3
        /\ results r
           = [ Entry "Relative Risk (RR)" (Text rr_3) (Some true);
               Entry "Odds Ratio (OR)" (Text or_3) (Some true) ])
  /\ (forall (h : Host) (x : number),
         isFinite x = false ->
         toFixed h x 3 = Normal (Number_toString h x)
         /\ (Number_toString h x = "Infinity"%string
             \/ Number_toString h x = "-Infinity"%string
             \/ Number_toString h x = "NaN"%string))
  /\ (forall (a b c d : number) (s : bool),
         (0 < a * d)%js = true -> (b * c)%js = S754_zero s ->
         epiMeasures.or (epiMeasures.Input a b c d) = S754_infinity s)
  /\ (forall (data : epiMeasures.input) (s : bool),
         (0 < epiMeasures.r1 data)%js = true ->
         epiMeasures.r2 data = S754_zero s ->
         epiMeasures.rr data = S754_infinity s)
  /\ (forall (h : Host) (x : number),
         (exists s, ciEpi.f h x = Normal s)
         /\ (isFinite x = false -> ciEpi.f h x = Normal "∞"%string))
  /\ (forall data : ciEpi.input,
         (ciEpi.b data === 0)%js = true \/ (ciEpi.c data === 0)%js = true ->
         ciEpi.orPoint data = PInf)
  /\ (forall (h : Host) (u : CiUtils) (data : ciEpi.input) (r : result),
         (ciEpi.b data === 0)%js = true \/ (ciEpi.c data === 0)%js = true ->
         ciEpi.compute h u data = Normal r ->
         nth_error (results r) 0
         = Some (Entry "Odds Ratio (Point)" (Text "∞") (Some true)))
  /\ (forall (h : Host) (u : CiUtils) (data : ciEpi.input),
         (forall x, exists z, getZCritical u x = Normal z) ->
         (forall x k, exists t, getTPValue u x k = Normal t) ->
         (forall lo hi k, exists s, formatCI u lo hi k = Normal s) ->
         exists r, ciEpi.compute h u data = Normal r).
Proof.
  split; [exact epiMeasures_compute_returns |].
  split; [| split; [| split; [| split; [| split; [| split]]]]].
  - intros h x Hx. split; [apply toFixed_not_finite; [lia | exact Hx] |].
    destruct x as [s | [|] | | s m e]; try discriminate; cbn; tauto.
  - intros a b c d s Hp Hz. unfold epiMeasures.or.
    cbn [epiMeasures.a epiMeasures.b epiMeasures.c epiMeasures.d].
    rewrite Hz. now apply div_pos_by_zero.
  - intros data s Hp Hz. unfold epiMeasures.rr. rewrite Hz.
    now apply div_pos_by_zero.
  - intros h x. split; [apply ciEpi_f_normal | apply ciEpi_f_not_finite].
  - exact ciEpi_orPoint_zero_divisor.
  - intros h u data r Hz Hr.
    destruct (ciEpi_compute_returned h u _ r Hr)
      as (z & wP & or_s & e_ci & w_ci & p_s & rr_s & rr_ci & rd_s & rd_ci
          & _ & _ & Hf & _ & _ & _ & _ & _ & _ & _ & Hres & _).
    rewrite (ciEpi_orPoint_zero_divisor data Hz) in Hf.
    rewrite ciEpi_f_not_finite in Hf by reflexivity. injection Hf as <-.
    now rewrite Hres.
  - exact ciEpi_compute_returns.
Qed.

End zero_denominators.

(** ** The copy that declares the exposure fields *)

Section declared_shape.
Import JS epidemiology.

Lemma absent_property (data : gmap string jsvalue) (k : string) :
  k ∉ dom data -> get data k = Undefined.
Proof.
  intros H. unfold get. apply not_elem_of_dom in H. now rewrite H.
Qed.

Lemma exposure_shape_reads_undefined (data : gmap string jsvalue) :
  exposure_shape data ->
  get data "a" = Undefined /\ get data "b" = Undefined
  /\ get data "c" = Undefined /\ get data "d" = Undefined.
Proof.
  intros H. unfold exposure_shape in H.
  repeat split; apply absent_property; rewrite H;
    rewrite !not_elem_of_union, !not_elem_of_singleton;
    repeat split; discriminate.
Qed.

(** C10: on an object of the declared shape (the four exposure fields, and
    so none of a, b, c, d) the four ratios [compute] forms are NaN: the
    'Exposed Risk' and 'Unexposed Risk' entries are what [formatPercent]
    makes of NaN, the 'Exposed Odds' and 'Unexposed Odds' entries read NaN,
    whatever counts were supplied; and the two [compute] return these
    entries when the helpers return. *)
Theorem exposure_fields_yield_NaN
    (h : Host) (utils : Utils) (u : CiUtils)
    (data : gmap string jsvalue) :
  exposure_shape data ->
  (exposed_risk data = NaN /\ unexposed_risk data = NaN
   /\ exposed_odds data = NaN /\ unexposed_odds data = NaN)
  /\ (forall r : result,
         riskRatioCalc_compute h utils u data = Normal r ->
         exists shown : string,
           formatPercent utils NaN = Normal shown
           /\ nth_error (results r) 2 = Some (Entry "Exposed Risk" (Text shown) None)
           /\ nth_error (results r) 3
              = Some (Entry "Unexposed Risk" (Text shown) None))
  /\ (forall r : result,
         oddsRatioCalc_compute h utils u data = Normal r ->
         nth_error (results r) 2 = Some (Entry "Exposed Odds" (Text "NaN") None)
         /\ nth_error (results r) 3
            = Some (Entry "Unexposed Odds" (Text "NaN") None))
  /\ (forall (res : estimate) (ci shown : string),
         computeRR utils data = Normal res ->
         formatCI u (lower res) (upper res) 3 = Normal ci ->
         formatPercent utils NaN = Normal shown ->
         exists r, riskRatioCalc_compute h utils u data = Normal r)
  /\ (forall (res : estimate) (ci : string),
         computeOR utils data = Normal res ->
         formatCI u (lower res) (upper res) 3 = Normal ci ->
         exists r, oddsRatioCalc_compute h utils u data = Normal r).
Proof.
  intros Hshape.
  destruct (exposure_shape_reads_undefined data Hshape) as (Ha & Hb & Hc & Hd).
  assert (Hnan : exposed_risk data = NaN /\ unexposed_risk data = NaN
                 /\ exposed_odds data = NaN /\ unexposed_odds data = NaN).
  { unfold exposed_risk, unexposed_risk, exposed_odds, unexposed_odds.
    rewrite Ha, Hb, Hc, Hd. repeat split; reflexivity. }
  destruct Hnan as (Her & Hur & Heo & Huo).
  split; [now repeat split |].
  split; [| split; [| split]].
  - intros r Hr. unfold riskRatioCalc_compute in Hr.
    rewrite Her, Hur in Hr. returned_normally Hr. injection Hr as <-.
    match goal with
    | H1 : formatPercent utils NaN = Normal ?s1 |- _ => exists s1
    end.
    repeat split; reflexivity.
  - intros r Hr. unfold oddsRatioCalc_compute in Hr.
    rewrite Heo, Huo in Hr. returned_normally Hr. injection Hr as <-.
    repeat match goal with
           | H : toFixed h NaN 3 = Normal _ |- _ =>
               rewrite toFixed_not_finite in H by (reflexivity || lia);
               injection H as <-
           end.
    split; reflexivity.
  - intros res ci shown Hres Hci Hpct. unfold riskRatioCalc_compute.
    rewrite Hres, Her, Hur. cbn [bind].
    destruct (toFixed_normal h (value res) 3) as [s3 ->]; [lia |].
    destruct (toFixed_normal h (value res) 2) as [s2 ->]; [lia |].
    cbn [bind]. rewrite Hci. cbn [bind]. rewrite Hpct. cbn [bind]. eauto.
  - intros res ci Hres Hci. unfold oddsRatioCalc_compute.
    rewrite Hres, Heo, Huo. cbn [bind].
    destruct (toFixed_normal h (value res) 3) as [s3 ->]; [lia |].
    cbn [bind]. rewrite Hci. cbn [bind].
    rewrite (toFixed_not_finite h NaN 3) by (reflexivity || lia).
    cbn [bind]. eauto.
Qed.

End declared_shape.

(** * Further properties of the calculators *)

(** ** Chi-square: what [compute] throws and shows *)

Section chi_square_more.
Import JS.

(** X1: [compute] throws exactly when no margin is zero and the p-value
    helper throws, and then it throws the helper's exception. *)
Theorem chiSquare_compute_throws_iff
    (h : Host) (u : CiUtils) (data : chiSquare.input) (e : exception) :
  chiSquare.compute h u data = Throw e
  <-> chiSquare.zero_total data = false
      /\ getChiSqPValue u (chiSquare.chi2 h data) 1 = Throw e.
Proof.
  unfold chiSquare.compute.
  destruct (chiSquare.zero_total data).
  - split; [discriminate | intros [H _]; discriminate].
  - destruct (getChiSqPValue u (chiSquare.chi2 h data) 1%js) as [p | e'] eqn:Hp;
      cbn [bind].
    + destruct (toFixed_normal h (chiSquare.chi2 h data) 4) as [s4 ->]; [lia |].
      destruct (toFixed_normal h (chiSquare.chi2 h data) 3) as [s3 ->]; [lia |].
      destruct (formatP_normal h p) as [sp ->]. cbn [bind].
      split; [discriminate | intros [_ H]; discriminate].
    + split; [intros H; split; [reflexivity | congruence] | intros [_ H]; congruence].
Qed.

(** X2: past the guard, when the helper returns [p], the record has four
    entries: the statistic with four decimals, the p-value, 1 degree of
    freedom and the Yates flag; the p-value reads the same in the entry and
    in the interpretation, and it reads "< 0.001" when p is below 0.001. *)
Theorem chiSquare_compute_report
    (h : Host) (u : CiUtils) (data : chiSquare.input) (p : number) :
  chiSquare.zero_total data = false ->
  getChiSqPValue u (chiSquare.chi2 h data) 1 = Normal p ->
  exists (r : result) (chi2_4 chi2_3 p_shown : string),
    chiSquare.compute h u data = Normal r
    /\ toFixed h (chiSquare.chi2 h data) 4 = Normal chi2_4
    /\ toFixed h (chiSquare.chi2 h data) 3 = Normal chi2_3
    /\ results r
       = [ Entry "Chi-Square (χ²)" (Text chi2_4) (Some true);
           Entry "p-value" (Text p_shown) (Some true);
           Entry "Degrees of Freedom" (Num 1) None;
           Entry "Yates Correction"
             (Text (if chiSquare.yates data then "Applied" else "Not Applied"))
             None ]
    /\ interpretation r
       = ("The Chi-square value is " +:+ chi2_3 +:+ " (p = " +:+ p_shown +:+ ").")
    /\ ((p < 0.001)%js = true -> p_shown = "< 0.001"%string)
    /\ ((p < 0.001)%js = false -> toFixed h p 4 = Normal p_shown).
Proof.
  intros Hz Hp. unfold chiSquare.compute. rewrite Hz, Hp. cbn [bind].
  destruct (toFixed_normal h (chiSquare.chi2 h data) 4) as [s4 Hs4]; [lia |].
  destruct (toFixed_normal h (chiSquare.chi2 h data) 3) as [s3 Hs3]; [lia |].
  destruct (formatP_normal h p) as [sp Hsp].
  rewrite Hs4, Hsp, Hs3. cbn [bind].
  eexists. exists s4, s3, sp.
  split; [reflexivity |]. split; [reflexivity |]. split; [reflexivity |].
  split; [reflexivity |]. split; [reflexivity |].
  split.
  - intros Hlt. unfold chiSquare.formatP in Hsp. rewrite Hlt in Hsp.
    now injection Hsp as <-.
  - intros Hge. unfold chiSquare.formatP in Hsp. now rewrite Hge in Hsp.
Qed.

End chi_square_more.

(** ** Relative risk and odds ratio on an empty row *)

Section ratios_more.
Import JS.

Lemma div_nan_r (x : number) : (x / NaN)%js = NaN.
Proof. destruct x as [s | s | | s m e]; reflexivity. Qed.

(** A zero times a number is a zero, or NaN. *)
Lemma mul_zero_l (s : bool) (x : number) :
  truthy (S754_zero s * x)%js = false.
Proof. destruct x as [s' | s' | | s' m e]; reflexivity. Qed.

Lemma mul_zero_r (s : bool) (x : number) :
  truthy (x * S754_zero s)%js = false.
Proof. destruct x as [s' | s' | | s' m e]; reflexivity. Qed.

(** Zero or NaN over zero or NaN is NaN. *)
Lemma zero_or_nan_quotient (x y : number) :
  truthy x = false -> truthy y = false -> (x / y)%js = NaN.
Proof.
  destruct x as [s | s | | s m e], y as [s' | s' | | s' m' e'];
    intros Hx Hy; try discriminate; reflexivity.
Qed.

(** X7: with an empty row (a and b both zero, or c and d both zero)
    [epiMeasures.compute] returns, and both entries read NaN. *)
Theorem epiMeasures_empty_row_shows_NaN
    (h : Host) (a b c d : number) :
  ((a === 0)%js = true /\ (b === 0)%js = true)
  \/ ((c === 0)%js = true /\ (d === 0)%js = true) ->
  exists r : result,
    epiMeasures.compute h (epiMeasures.Input a b c d) = Normal r
    /\ results r
       = [ Entry "Relative Risk (RR)" (Text "NaN") (Some true);
           Entry "Odds Ratio (OR)" (Text "NaN") (Some true) ].
Proof.
  intros Hrow.
  assert (Hnan : epiMeasures.rr (epiMeasures.Input a b c d) = NaN
                 /\ epiMeasures.or (epiMeasures.Input a b c d) = NaN).
  { unfold epiMeasures.rr, epiMeasures.or, epiMeasures.r1, epiMeasures.r2,
      epiMeasures.n1, epiMeasures.n2.
    cbn [epiMeasures.a epiMeasures.b epiMeasures.c epiMeasures.d].
    destruct Hrow as [[Hx Hy] | [Hx Hy]];
      apply strict_eq_zero in Hx, Hy;
      destruct Hx as [sx ->], Hy as [sy ->].
    - split.
      + replace (S754_zero sx / (S754_zero sx + S754_zero sy))%js with NaN
          by (now destruct sx, sy).
        reflexivity.
      + apply zero_or_nan_quotient; [apply mul_zero_l | apply mul_zero_l].
    - split.
      + replace (S754_zero sx / (S754_zero sx + S754_zero sy))%js with NaN
          by (now destruct sx, sy).
        apply div_nan_r.
      + apply zero_or_nan_quotient; [apply mul_zero_r | apply mul_zero_r]. }
  destruct Hnan as [Hrr Hor].
  destruct (epiMeasures_compute_returns h (epiMeasures.Input a b c d))
    as (r & rr_3 & or_3 & Hr & H1 & H2 & Hres).
  exists r. split; [exact Hr |].
  rewrite Hrr in H1. rewrite Hor in H2.
  rewrite toFixed_not_finite in H1, H2 by (reflexivity || lia).
  injection H1 as <-. injection H2 as <-. exact Hres.
Qed.

End ratios_more.

(** ** What the toolkit's record shows *)

Section reports.
Import JS.

Lemma logical_or_zero_not_nan (x : number) : is_nan (logical_or x 0) = false.
Proof. destruct x as [s | s | | s m e]; reflexivity. Qed.

(** A risk whose count is zero is the literal 0 of [|| 0]. *)
Lemma risk_of_zero_count (x y : number) :
  (x === 0)%js = true -> logical_or (x / (x + y)) 0 = 0%js.
Proof.
  intros H. apply strict_eq_zero in H. destruct H as [s ->].
  destruct s, y as [[|] | [|] | | [|] m e]; reflexivity.
Qed.

(** X15: when the corrected odds ratio is at most 0 or is not finite (NaN
    or Infinity, as on overflow), [getLogP] is 1 without a call to the
    distribution helper, and the 'p-value (Association)' entry of a
    returned record reads 1.0000; otherwise the entry is what [fP] makes of
    the two-sided value the helper returns at
    |Math.log(orCorrected)| / seLogOrWoolf with 1000 degrees of freedom. *)
Theorem ciEpi_association_p_value_shown
    (h : Host) (u : CiUtils) (data : ciEpi.input) (r : result) :
  ciEpi.compute h u data = Normal r ->
  ((ciEpi.orCorrected data <= 0)%js = true
   \/ isFinite (ciEpi.orCorrected data) = false ->
   nth_error (results r) 3
   = Some (Entry "p-value (Association)" (Text "1.0000") (Some true)))
  /\ ((0 < ciEpi.orCorrected data)%js = true ->
      isFinite (ciEpi.orCorrected data) = true ->
      exists (t : TPValue) (p_s : string),
        getTPValue u
          (Math_abs (Math_log h (ciEpi.orCorrected data))
           / ciEpi.seLogOrWoolf data)%js 1000%js = Normal t
        /\ ciEpi.fP h (twoSided t) = Normal p_s
        /\ nth_error (results r) 3
           = Some (Entry "p-value (Association)" (Text p_s) (Some true))).
Proof.
  intros Hr.
  destruct (ciEpi_compute_returned h u data r Hr)
    as (z & wP & or_s & e_ci & w_ci & p_s & rr_s & rr_ci & rd_s & rd_ci
        & _ & HwP & _ & _ & _ & Hps & _ & _ & _ & _ & Hres & _).
  rewrite Hres. cbn [nth_error]. split.
  - intros Hg. unfold ciEpi.getLogP in HwP.
    replace ((ciEpi.orCorrected data <= 0)%js
             || negb (isFinite (ciEpi.orCorrected data))) with true in HwP
      by (destruct Hg as [-> | ->]; rewrite ?orb_true_r; reflexivity).
    injection HwP as <-.
    assert (E : ciEpi.fP h 1%js = Normal "1.0000"%string)
      by (vm_compute; reflexivity).
    rewrite E in Hps. now injection Hps as <-.
  - intros Hp Hf. unfold ciEpi.getLogP in HwP.
    apply zero_ltb in Hp. destruct Hp as [Hp | (m & e & Hp)];
      [rewrite Hp in Hf; discriminate |].
    rewrite Hp in HwP |- *. cbn [leb SFleb SFcompare isFinite negb orb] in HwP.
    destruct (getTPValue u _ 1000%js) as [t |] eqn:Ht; cbn [bind] in HwP;
      [| discriminate].
    injection HwP as <-. exists t, p_s. repeat split; assumption || reflexivity.
Qed.

(** X16: whenever [ciEpi.compute] returns, the record holds the eight
    entries in their fixed order, and the odds ratio and the p-value read in
    the interpretation as in the entries 'Odds Ratio (Point)' and
    'p-value (Association)'. *)
Theorem ciEpi_report_consistent
    (h : Host) (u : CiUtils) (data : ciEpi.input) (r : result) :
  ciEpi.compute h u data = Normal r ->
  map label (results r)
  = [ "Odds Ratio (Point)"; "Approximate Exact CI (Fisher-like)";
      "Woolf (Wald) CI"; "p-value (Association)"; "Relative Risk (RR)";
      "RR 95% CI (Katz)"; "Risk Difference (RD)"; "RD 95% CI" ]%string
  /\ map isMain (results r)
     = [ Some true; Some true; None; Some true; None; None; None; None ]
  /\ exists or_s p_s : string,
       nth_error (map value (results r)) 0 = Some (Text or_s)
       /\ nth_error (map value (results r)) 3 = Some (Text p_s)
       /\ interpretation r
          = ("The point Odds Ratio is " +:+ or_s +:+ " with association p="
             +:+ p_s +:+ ".").
Proof.
  intros Hr.
  destruct (ciEpi_compute_returned h u data r Hr)
    as (z & wP & or_s & e_ci & w_ci & p_s & rr_s & rr_ci & rd_s & rd_ci
        & _ & _ & _ & _ & _ & _ & _ & _ & _ & _ & Hres & Hint).
  rewrite Hres, Hint. split; [reflexivity |]. split; [reflexivity |].
  exists or_s, p_s. repeat split; reflexivity.
Qed.

(** X17: how the toolkit shows RR on the tables without cases, whenever
    [compute] returns.  A count of cases that is zero makes the risk the
    literal 0.  No risk among the unexposed and a risk above 0 among the
    exposed: RR reads the infinity sign and the Katz bounds handed to
    [formatCI] are 0 and Infinity.  No risk among the unexposed and none
    above 0 among the exposed: RR reads 1.0000.  A zero risk among the
    exposed and a non-zero one among the unexposed: RR reads 0.0000 and
    both Katz bounds are 0. *)
Theorem ciEpi_rr_shown_without_cases
    (h : Host) (u : CiUtils) (data : ciEpi.input) (r : result) :
  ciEpi.compute h u data = Normal r ->
  ((ciEpi.a data === 0)%js = true -> ciEpi.r1 data = 0%js)
  /\ ((ciEpi.c data === 0)%js = true -> ciEpi.r2 data = 0%js)
  /\ ((ciEpi.r2 data === 0)%js = true -> (0 < ciEpi.r1 data)%js = true ->
      nth_error (results r) 4 = Some (Entry "Relative Risk (RR)" (Text "∞") None)
      /\ exists ci, formatCI u 0 PInf 4 = Normal ci
                    /\ nth_error (results r) 5
                       = Some (Entry "RR 95% CI (Katz)" (Text ci) None))
  /\ ((ciEpi.r2 data === 0)%js = true -> (0 < ciEpi.r1 data)%js = false ->
      nth_error (results r) 4
      = Some (Entry "Relative Risk (RR)" (Text "1.0000") None))
  /\ ((ciEpi.r1 data === 0)%js = true -> (ciEpi.r2 data === 0)%js = false ->
      nth_error (results r) 4
      = Some (Entry "Relative Risk (RR)" (Text "0.0000") None)
      /\ exists ci, formatCI u 0 0 4 = Normal ci
                    /\ nth_error (results r) 5
                       = Some (Entry "RR 95% CI (Katz)" (Text ci) None)).
Proof.
  intros Hr.
  destruct (ciEpi_compute_returned h u data r Hr)
    as (z & wP & or_s & e_ci & w_ci & p_s & rr_s & rr_ci & rd_s & rd_ci
        & _ & _ & _ & _ & _ & _ & Hrrs & Hrrci & _ & _ & Hres & _).
  rewrite Hres. cbn [nth_error].
  split; [intros H; now apply risk_of_zero_count |].
  split; [intros H; now apply risk_of_zero_count |].
  split; [| split].
  - intros H2 H1.
    assert (E : ciEpi.rr data = PInf) by (unfold ciEpi.rr; now rewrite H2, H1).
    unfold ciEpi.rrLower, ciEpi.rrUpper in Hrrci. rewrite E in Hrrs, Hrrci.
    cbn in Hrrs. injection Hrrs as <-. cbn in Hrrci.
    split; [reflexivity | exists rr_ci; split; [exact Hrrci | reflexivity]].
  - intros H2 H1.
    assert (E : ciEpi.rr data = 1%js) by (unfold ciEpi.rr; now rewrite H2, H1).
    rewrite E in Hrrs.
    assert (E1 : ciEpi.f h 1%js = Normal "1.0000"%string)
      by (vm_compute; reflexivity).
    rewrite E1 in Hrrs. now injection Hrrs as <-.
  - intros H1 H2.
    assert (E : exists s, ciEpi.rr data = S754_zero s).
    { unfold ciEpi.rr. rewrite H2.
      apply strict_eq_zero in H1. destruct H1 as [s1 ->].
      pose proof (logical_or_zero_not_nan
                    (ciEpi.c data / (ciEpi.c data + ciEpi.d data))%js) as Hn.
      change (logical_or _ 0%js) with (ciEpi.r2 data) in Hn.
      destruct (ciEpi.r2 data) as [s2 | s2 | | s2 m2 e2];
        try discriminate; eexists; reflexivity. }
    destruct E as [s E].
    unfold ciEpi.rrLower, ciEpi.rrUpper in Hrrci. rewrite E in Hrrs, Hrrci.
    unfold ciEpi.f in Hrrs. cbn [isFinite] in Hrrs.
    rewrite toFixed_zero in Hrrs. injection Hrrs as <-.
    replace ((0 < S754_zero s)%js) with false in Hrrci by (now destruct s).
    cbn [andb] in Hrrci.
    split; [reflexivity | exists rr_ci; split; [exact Hrrci | reflexivity]].
Qed.

End reports.

(** ** The risk ratio and odds ratio calculators on an object with a, b,
    c, d *)

Section abcd_objects.
Import JS epidemiology.

(** An object that holds the numbers a, b, c, d under those names. *)
Lemma abcd_reads (data : gmap string jsvalue) (a b c d : number) :
  data !! "a"%string = Some (Number a) -> data !! "b"%string = Some (Number b) ->
  data !! "c"%string = Some (Number c) -> data !! "d"%string = Some (Number d) ->
  exposed_risk data = (a / (a + b))%js
  /\ unexposed_risk data = (c / (c + d))%js
  /\ exposed_odds data = (a / b)%js
  /\ unexposed_odds data = (c / d)%js.
Proof.
  intros Ea Eb Ec Ed.
  unfold exposed_risk, unexposed_risk, exposed_odds, unexposed_odds, get.
  rewrite Ea, Eb, Ec, Ed. repeat split; reflexivity.
Qed.

(** X18: [oddsRatioCalc] returns exactly when [computeOR] and [formatCI]
    return; the headline entry then reads as the number in the
    interpretation, and on an object with numbers a and b the 'Exposed
    Odds' entry is (a/b).toFixed(3): for a above 0 it reads Infinity when b
    is +0 and -Infinity when b is -0, and it reads NaN when a and b are
    both zero. *)
Theorem oddsRatioCalc_outcome
    (h : Host) (utils : Utils) (u : CiUtils)
    (data : gmap string jsvalue) :
  ((exists r, oddsRatioCalc_compute h utils u data = Normal r)
   <-> exists (res : estimate) (ci : string),
         computeOR utils data = Normal res
         /\ formatCI u (lower res) (upper res) 3 = Normal ci)
  /\ (forall r : result,
         oddsRatioCalc_compute h utils u data = Normal r ->
         exists or_s exposed : string,
           nth_error (results r) 0
           = Some (Entry "Odds Ratio (OR)" (Text or_s) (Some true))
           /\ interpretation r = ("The odds ratio is " +:+ or_s +:+ ".")
           /\ toFixed h (exposed_odds data) 3 = Normal exposed
           /\ nth_error (results r) 2
              = Some (Entry "Exposed Odds" (Text exposed) None))
  /\ (forall a b : number,
         data !! "a"%string = Some (Number a) ->
         data !! "b"%string = Some (Number b) ->
         ((0 < a)%js = true -> b = pos_zero ->
          toFixed h (exposed_odds data) 3 = Normal "Infinity"%string)
         /\ ((0 < a)%js = true -> b = neg_zero ->
             toFixed h (exposed_odds data) 3 = Normal "-Infinity"%string)
         /\ ((a === 0)%js = true -> (b === 0)%js = true ->
             toFixed h (exposed_odds data) 3 = Normal "NaN"%string)).
Proof.
  split; [| split].
  - unfold oddsRatioCalc_compute. split.
    + intros [r Hr]. returned_normally Hr. eauto.
    + intros (res & ci & Hres & Hci). rewrite Hres. cbn [bind].
      destruct (toFixed_normal h (value res) 3) as [s3 ->]; [lia |].
      cbn [bind]. rewrite Hci. cbn [bind].
      destruct (toFixed_normal h (exposed_odds data) 3) as [s1 ->]; [lia |].
      destruct (toFixed_normal h (unexposed_odds data) 3) as [s2 ->]; [lia |].
      cbn [bind]. eauto.
  - intros r Hr. unfold oddsRatioCalc_compute in Hr.
    returned_normally Hr. injection Hr as <-.
    do 2 eexists. repeat split; reflexivity.
  - intros a b Ea Eb.
    assert (E : exposed_odds data = (a / b)%js)
      by (unfold exposed_odds, get; now rewrite Ea, Eb).
    rewrite E. split; [| split].
    + intros Ha ->. unfold pos_zero. rewrite (div_pos_by_zero a false Ha).
      reflexivity.
    + intros Ha ->. unfold neg_zero. rewrite (div_pos_by_zero a true Ha).
      reflexivity.
    + intros Ha Hb. apply strict_eq_zero in Ha, Hb.
      destruct Ha as [sa ->], Hb as [sb ->]. reflexivity.
Qed.

(** X19: [riskRatioCalc] returns exactly when [computeRR], [formatCI] and
    the two calls of [formatPercent] return; on an object with numbers a,
    b, c, d the two risk entries are what [formatPercent] makes of a/(a+b)
    and c/(c+d), and the interpretation says "higher" exactly when the
    value returned by [computeRR] is above 1. *)
Theorem riskRatioCalc_outcome
    (h : Host) (utils : Utils) (u : CiUtils)
    (data : gmap string jsvalue) (a b c d : number) :
  data !! "a"%string = Some (Number a) -> data !! "b"%string = Some (Number b) ->
  data !! "c"%string = Some (Number c) -> data !! "d"%string = Some (Number d) ->
  ((exists r, riskRatioCalc_compute h utils u data = Normal r)
   <-> exists (res : estimate) (ci exposed unexposed : string),
         computeRR utils data = Normal res
         /\ formatCI u (lower res) (upper res) 3 = Normal ci
         /\ formatPercent utils (a / (a + b))%js = Normal exposed
         /\ formatPercent utils (c / (c + d))%js = Normal unexposed)
  /\ (forall r : result,
         riskRatioCalc_compute h utils u data = Normal r ->
         exists (res : estimate) (exposed unexposed rr_2 : string),
           computeRR utils data = Normal res
           /\ formatPercent utils (a / (a + b))%js = Normal exposed
           /\ formatPercent utils (c / (c + d))%js = Normal unexposed
           /\ nth_error (results r) 2
              = Some (Entry "Exposed Risk" (Text exposed) None)
           /\ nth_error (results r) 3
              = Some (Entry "Unexposed Risk" (Text unexposed) None)
           /\ toFixed h (value res) 2 = Normal rr_2
           /\ interpretation r
              = ("Exposed group has "
                 +:+ (if (1 < value res)%js then "higher" else "lower")
                 +:+ " risk (RR=" +:+ rr_2 +:+ ").")).
Proof.
  intros Ea Eb Ec Ed.
  destruct (abcd_reads data a b c d Ea Eb Ec Ed) as (Her & Hur & _ & _).
  unfold riskRatioCalc_compute. rewrite Her, Hur.
  split.
  - split.
    + intros [r Hr].
      destruct (computeRR utils data) as [res |] eqn:Hres; cbn [bind] in Hr;
        [| discriminate].
      destruct (toFixed h (value res) 3); cbn [bind] in Hr; [| discriminate].
      destruct (formatCI u (lower res) (upper res) 3%js) as [ci |] eqn:Hci;
        cbn [bind] in Hr; [| discriminate].
      destruct (formatPercent utils (a / (a + b))%js) as [s1 |] eqn:H1;
        cbn [bind] in Hr; [| discriminate].
      destruct (formatPercent utils (c / (c + d))%js) as [s2 |] eqn:H2;
        cbn [bind] in Hr; [| discriminate].
      exists res, ci, s1, s2. repeat split; assumption || reflexivity.
    + intros (res & ci & s1 & s2 & Hres & Hci & H1 & H2).
      rewrite Hres. cbn [bind].
      destruct (toFixed_normal h (value res) 3) as [s3 ->]; [lia |].
      cbn [bind]. rewrite Hci. cbn [bind]. rewrite H1. cbn [bind].
      rewrite H2. cbn [bind].
      destruct (toFixed_normal h (value res) 2) as [v2 ->]; [lia |].
      cbn [bind]. eauto.
  - intros r Hr.
    destruct (computeRR utils data) as [res |] eqn:Hres; cbn [bind] in Hr;
      [| discriminate].
    destruct (toFixed h (value res) 3); cbn [bind] in Hr; [| discriminate].
    destruct (formatCI u (lower res) (upper res) 3%js) as [ci |];
      cbn [bind] in Hr; [| discriminate].
    destruct (formatPercent utils (a / (a + b))%js) as [s1 |] eqn:H1;
      cbn [bind] in Hr; [| discriminate].
    destruct (formatPercent utils (c / (c + d))%js) as [s2 |] eqn:H2;
      cbn [bind] in Hr; [| discriminate].
    destruct (toFixed h (value res) 2) as [v2 |] eqn:Hv2;
      cbn [bind] in Hr; [| discriminate].
    injection Hr as <-.
    exists res, s1, s2, v2. repeat split; assumption || reflexivity.
Qed.

End abcd_objects.

(** ** The properties at concrete inputs *)

Section instances.
Import JS.

Lemma reference_exp_fixed_sign_clear (x : Z) :
  sign_clear (reference.exp_fixed false x) = true.
Proof.
  unfold reference.exp_fixed.
  destruct (1100 <? _)%Z; [reflexivity |].
  destruct (_ <? -1200)%Z; [reflexivity |].
  destruct (reference.exp_terms _ _ _ _); try reflexivity.
  unfold binary_round. destruct (shl_align _ _ _). apply round_sign_clear.
Qed.

(** The reference engine does not make a square negative. *)
Lemma reference_pow_square_not_negative (m : positive) (e : Z) :
  not_negative (pow_approx reference.host (S754_finite false m e) 2) = true.
Proof.
  apply sign_clear_not_negative.
  change (pow_approx reference.host (S754_finite false m e) 2%js)
    with (reference.exp_fixed false
            (reference.scale 4503599627370496 (-51) (reference.ln_fixed m e))).
  apply reference_exp_fixed_sign_clear.
Qed.

Lemma ciEpi_compute_returns_fixed (data : ciEpi.input) :
  exists r, ciEpi.compute reference.host fixed_ciUtils data = Normal r.
Proof.
  apply ciEpi_compute_returns; intros; eexists; reflexivity.
Qed.

(** The example of the calculator: 10, 20, 30, 40 with the Yates correction,
    run by the reference engine. *)
Lemma chiSquare_statistic_formula_witness :
  chiSquare.chi2 reference.host (chiSquare.Input 10 20 30 40 true)
  = (2250000 / 5040000)%js
  /\ exists r : result,
       chiSquare.compute reference.host fixed_ciUtils
         (chiSquare.Input 10 20 30 40 true) = Normal r
       /\ nth_error (results r) 0
          = Some (Entry "Chi-Square (χ²)" (Text "0.4464") (Some true)).
Proof.
  destruct (chiSquare_statistic_formula reference.host fixed_ciUtils)
    as (_ & _ & _ & _ & _ & H & _).
  assert (Hpow : Math_pow reference.host 150 2 = 22500%js)
    by (vm_compute; reflexivity).
  destruct (H Hpow) as (Hc & _ & Hr).
  split; [exact Hc |]. apply (Hr 0.5%js). reflexivity.
Defined.

(** The table 0, 0, 5, 5: the first row sum is zero. *)
Lemma chiSquare_zero_margin_short_circuit_witness :
  (chiSquare.row1 (chiSquare.Input 0 0 5 5 false) === 0)%js = true
  /\ chiSquare.compute reference.host throwing_ciUtils (chiSquare.Input 0 0 5 5 false)
     = Normal {| results := [];
                 interpretation := "Table contains a row or column with zero totals.";
                 rCode := None;
                 formula := None |}.
Proof.
  assert (H0 : (chiSquare.row1 (chiSquare.Input 0 0 5 5 false) === 0)%js = true)
    by reflexivity.
  split; [exact H0 |].
  apply (proj1 (chiSquare_zero_margin_short_circuit reference.host throwing_ciUtils)).
  left. exact H0.
Defined.


(** The second example of the toolkit, 2, 18, 0, 20: the cell c is zero. *)
Lemma ciEpi_zero_cell_fallback_witness :
  ciEpi.exactLower reference.host (ciEpi.Input 2 18 0 20 95) 1.96
  = ciEpi.woolfLower reference.host (ciEpi.Input 2 18 0 20 95) 1.96
  /\ ciEpi.exactUpper reference.host (ciEpi.Input 2 18 0 20 95) 1.96
     = ciEpi.woolfUpper reference.host (ciEpi.Input 2 18 0 20 95) 1.96.
Proof.
  apply (proj1 ciEpi_zero_cell_fallback).
  right. right. left. reflexivity.
Defined.

(** Estimates 0 and Infinity with helpers that throw, estimate 2 with
    helpers that return. *)
Lemma ciEpi_getLogP_guard_witness :
  ciEpi.getLogP reference.host throwing_ciUtils 0 1 = Normal 1%js
  /\ ciEpi.getLogP reference.host throwing_ciUtils PInf 1 = Normal 1%js
  /\ ciEpi.getLogP reference.host fixed_ciUtils 2 1 = Normal 0.5%js.
Proof.
  destruct ciEpi_getLogP_guard as (H1 & H2 & _).
  split; [| split].
  - apply H1. left. reflexivity.
  - apply H1. right. reflexivity.
  - rewrite H2 by reflexivity. reflexivity.
Defined.

(** Tables with b = 0 or c = 0. *)
Lemma ratio_zero_denominators_shown_witness :
  epiMeasures.or (epiMeasures.Input 1 0 2 3) = PInf
  /\ epiMeasures.or (epiMeasures.Input 1 neg_zero 2 3) = NInf
  /\ epiMeasures.rr (epiMeasures.Input 1 1 0 3) = PInf
  /\ ciEpi.orPoint (ciEpi.Input 2 18 0 20 95) = PInf
  /\ ciEpi.f reference.host PInf = Normal "∞"%string
  /\ exists r, ciEpi.compute reference.host fixed_ciUtils (ciEpi.Input 2 18 0 20 95)
               = Normal r.
Proof.
  destruct ratio_zero_denominators_shown
    as (_ & _ & Hor & Hrr & Hf & Hpt & _ & Htot).
  split; [apply Hor; reflexivity |].
  split; [apply Hor; reflexivity |].
  split; [apply (Hrr (epiMeasures.Input 1 1 0 3) false); reflexivity |].
  split; [apply Hpt; right; reflexivity |].
  split; [apply (proj2 (Hf reference.host PInf)); reflexivity |].
  apply Htot; intros; eexists; reflexivity.
Defined.

(** The corrected numerator of 10, 20, 30, 40 is 150, between 0 and the
    uncorrected 200, and that of 10, 20, 30, 60 is clamped at 0. *)
Lemma chiSquare_yates_numerator_bounds_witness :
  chiSquare.correctedNum (chiSquare.Input 10 20 30 40 true) = 150%js
  /\ chiSquare.numerator (chiSquare.Input 10 20 30 40 true) = 200%js
  /\ (0 <= chiSquare.correctedNum (chiSquare.Input 10 20 30 40 true))%js = true
  /\ (chiSquare.correctedNum (chiSquare.Input 10 20 30 40 true)
      <= chiSquare.numerator (chiSquare.Input 10 20 30 40 true))%js = true
  /\ chiSquare.correctedNum (chiSquare.Input 10 20 30 60 true) = 0%js
  /\ (chiSquare.correctedNum (chiSquare.Input 10 20 30 60 true)
      <= chiSquare.numerator (chiSquare.Input 10 20 30 60 true))%js = true.
Proof.
  destruct (chiSquare_yates_numerator_bounds 10 20 30 40)
    as (_ & _ & _ & _ & H2 & H6).
  destruct (chiSquare_yates_numerator_bounds 10 20 30 60) as (_ & _ & _ & H3 & _).
  split; [rewrite H2 by reflexivity; reflexivity |].
  split; [reflexivity |].
  split; [apply H6; reflexivity |].
  split; [apply H6; reflexivity |].
  apply H3; reflexivity.
Defined.

(** The table 10, 20, 30, 60, where ad = bc, run by the reference engine. *)
Lemma chiSquare_statistic_never_negative_witness :
  (is_nan (chiSquare.chi2 reference.host (chiSquare.Input 10 20 30 60 false)) = true
   \/ (0 <= chiSquare.chi2 reference.host (chiSquare.Input 10 20 30 60 false))%js
      = true)
  /\ (chiSquare.chi2 reference.host (chiSquare.Input 10 20 30 60 false) === 0)%js
     = true.
Proof.
  destruct (chiSquare_statistic_never_negative reference.host
              (chiSquare.Input 10 20 30 60 false))
    as (H1 & H2); try reflexivity.
  - exact reference_pow_square_not_negative.
  - split; [exact H1 | apply H2; reflexivity].
Defined.

(** The example of the odds ratio calculator: 70, 30, 40, 60. *)
Lemma odds_ratio_point_estimate_witness :
  ciEpi.orPoint (ciEpi.Input 70 30 40 60 95) = (70 * 60 / (30 * 40))%js
  /\ epiMeasures.or (epiMeasures.Input 70 30 40 60) = 3.5%js.
Proof.
  destruct odds_ratio_point_estimate as (_ & H & _ & _ & H' & _).
  split; [apply H; reflexivity | exact H'].
Defined.

(** The example object of the copy with the exposure fields. *)
Lemma exposure_fields_yield_NaN_witness :
  epidemiology.exposure_shape exposure_example
  /\ epidemiology.exposed_risk exposure_example = NaN
  /\ exists r,
       epidemiology.riskRatioCalc_compute reference.host fixed_utils
         fixed_ciUtils exposure_example = Normal r
       /\ nth_error (results r) 2
          = Some (Entry "Exposed Risk" (Text "percent") None).
Proof.
  assert (Hs : epidemiology.exposure_shape exposure_example).
  { unfold epidemiology.exposure_shape, exposure_example.
    rewrite !dom_insert_L, dom_singleton_L. set_solver. }
  destruct (exposure_fields_yield_NaN reference.host fixed_utils fixed_ciUtils
              exposure_example Hs) as ((Her & _) & Hrr & _ & Htot & _).
  split; [exact Hs |]. split; [exact Her |].
  destruct (Htot {| epidemiology.value := 1%js; epidemiology.lower := 1%js;
                    epidemiology.upper := 1%js |}
              "lower to upper"%string "percent"%string) as [r Hr];
    try reflexivity.
  exists r. split; [exact Hr |].
  destruct (Hrr r Hr) as (shown & Hshown & H2 & _).
  cbn in Hshown. injection Hshown as <-. exact H2.
Defined.

(** The example of the chi-square calculator. *)
Lemma chiSquare_compute_report_witness :
  exists (r : result) (p_shown : string),
    chiSquare.compute reference.host fixed_ciUtils
      (chiSquare.Input 10 20 30 40 true) = Normal r
    /\ nth_error (results r) 1 = Some (Entry "p-value" (Text p_shown) (Some true))
    /\ nth_error (results r) 2 = Some (Entry "Degrees of Freedom" (Num 1) None)
    /\ nth_error (results r) 3
       = Some (Entry "Yates Correction" (Text "Applied") None).
Proof.
  destruct (chiSquare_compute_report reference.host fixed_ciUtils
              (chiSquare.Input 10 20 30 40 true) 0.5%js)
    as (r & s4 & s3 & sp & Hr & _ & _ & Hres & _).
  - reflexivity.
  - reflexivity.
  - exists r, sp. rewrite Hres. repeat split; try exact Hr; reflexivity.
Defined.

(** A table whose first row is empty. *)
Lemma epiMeasures_empty_row_shows_NaN_witness :
  exists r : result,
    epiMeasures.compute reference.host (epiMeasures.Input 0 0 5 5) = Normal r
    /\ results r
       = [ Entry "Relative Risk (RR)" (Text "NaN") (Some true);
           Entry "Odds Ratio (OR)" (Text "NaN") (Some true) ].
Proof.
  apply (epiMeasures_empty_row_shows_NaN reference.host 0 0 5 5).
  left. split; reflexivity.
Defined.

(** On the cells 1e200 the corrected odds ratio is NaN and the p-value
    reads 1.0000. *)
Lemma ciEpi_association_p_value_shown_witness :
  exists r : result,
    ciEpi.compute reference.host fixed_ciUtils
      (ciEpi.Input 1e200 1e200 1e200 1e200 95) = Normal r
    /\ isFinite (ciEpi.orCorrected (ciEpi.Input 1e200 1e200 1e200 1e200 95)) = false
    /\ nth_error (results r) 3
       = Some (Entry "p-value (Association)" (Text "1.0000") (Some true)).
Proof.
  destruct (ciEpi_compute_returns_fixed (ciEpi.Input 1e200 1e200 1e200 1e200 95))
    as [r Hr].
  assert (Hn : isFinite (ciEpi.orCorrected (ciEpi.Input 1e200 1e200 1e200 1e200 95))
               = false) by (vm_compute; reflexivity).
  exists r. split; [exact Hr |]. split; [exact Hn |].
  apply (proj1 (ciEpi_association_p_value_shown reference.host fixed_ciUtils _ r Hr)).
  right. exact Hn.
Defined.

Lemma ciEpi_report_consistent_witness :
  exists r : result,
    ciEpi.compute reference.host fixed_ciUtils (ciEpi.Input 20 80 10 90 95)
    = Normal r
    /\ map isMain (results r)
       = [ Some true; Some true; None; Some true; None; None; None; None ].
Proof.
  destruct (ciEpi_compute_returns_fixed (ciEpi.Input 20 80 10 90 95)) as [r Hr].
  exists r. split; [exact Hr |].
  apply (ciEpi_report_consistent reference.host fixed_ciUtils _ r Hr).
Defined.

(** The second example of the toolkit, 2, 18, 0, 20: no case among the
    unexposed. *)
Lemma ciEpi_rr_shown_without_cases_witness :
  exists r : result,
    ciEpi.compute reference.host fixed_ciUtils (ciEpi.Input 2 18 0 20 95)
    = Normal r
    /\ nth_error (results r) 4
       = Some (Entry "Relative Risk (RR)" (Text "∞") None).
Proof.
  destruct (ciEpi_compute_returns_fixed (ciEpi.Input 2 18 0 20 95)) as [r Hr].
  exists r. split; [exact Hr |].
  destruct (ciEpi_rr_shown_without_cases reference.host fixed_ciUtils _ r Hr)
    as (_ & _ & H & _).
  apply H; vm_compute; reflexivity.
Defined.

(** The example object with the fields a, b, c, d. *)
Lemma riskRatioCalc_outcome_witness :
  exists r : result,
    epidemiology.riskRatioCalc_compute reference.host fixed_utils
      fixed_ciUtils abcd_example = Normal r
    /\ nth_error (results r) 2 = Some (Entry "Exposed Risk" (Text "percent") None).
Proof.
  destruct (riskRatioCalc_outcome reference.host fixed_utils fixed_ciUtils
              abcd_example 45 55 20 80)
    as [Hiff Hshape]; try reflexivity.
  destruct (proj2 Hiff) as [r Hr].
  { do 4 eexists. repeat split; reflexivity. }
  exists r. split; [exact Hr |].
  destruct (Hshape r Hr) as (res & s1 & s2 & v2 & _ & H1 & _ & H2 & _).
  cbn in H1. injection H1 as <-. exact H2.
Defined.

End instances.
